(** * MP3Converter front end (frontend/src/App.jsx): model and properties

    A shallow embedding of the React client of the YouTube-to-MP3 converter:
    the time helpers [formatTime] / [parseTimeInput], the [TimeInput]
    component, and the handlers of [App] that talk to the conversion
    endpoint and drive the preview player.

    Conventions.
    - Times kept in React state ([rangeValues], [audioDuration]) are whole
      seconds and are modelled in [Z]: the slider has [step = 1], a
      [TimeInput] commits a whole number or [NaN], and [handleMetadata]
      stores [Math.floor(duration)].  A commit of [NaN] is described at
      the [TimeInput] ([TimeInput.handleBlur]); the state of [App] after
      it, which holds [NaN] in the range, is outside the model.
    - The playback position of the audio element and the argument of
      [formatTime] are JavaScript numbers that need not be whole; they are
      modelled as [NaN] or an exact rational.  Infinite positions and
      durations are outside the model.  The quotient by 60 is exact and
      its floor is rounded to a double when it is printed ([Js.toString]);
      the code rounds the quotient first.  For a double below 2^53 the two
      agree, and the properties that need this are stated below 2^53.
    - What [parseInt] and the arithmetic of [parseTimeInput] produce are
      whole doubles, an infinity or [NaN]; they are modelled with their
      rounding to 53 bits ([Js.integral]).  The sign of zero is not kept.
    - Strings are [string]: sequences of UTF-16 code units below 256. *)

From Stdlib Require Import ZArith QArith Qround String Ascii List Bool Lia.
From Equations Require Import Equations.
Import ListNotations.

Local Open Scope string_scope.
Local Open Scope Z_scope.

(** ** The JavaScript primitives the client relies on *)

Module Js.

(** A JavaScript number: [NaN] or a finite value. *)
Inductive number : Type :=
| NaN
| Fin (q : Q).

Definition of_Z (z : Z) : number := Fin (inject_Z z).

(** The global [isNaN]. *)
Definition isNaN (x : number) : bool :=
  match x with NaN => true | Fin _ => false end.

(** [x < y]; every comparison with [NaN] is false. *)
Definition ltb (x y : number) : bool :=
  match x, y with
  | Fin a, Fin b => negb (Qle_bool b a)
  | _, _ => false
  end.

(** [x >= y]; every comparison with [NaN] is false. *)
Definition geb (x y : number) : bool :=
  match x, y with
  | Fin a, Fin b => Qle_bool b a
  | _, _ => false
  end.

(** [x / y] for a finite non-zero divisor. *)
Definition div (x y : number) : number :=
  match x, y with
  | Fin a, Fin b => if Qeq_bool b 0 then NaN else Fin (a / b)
  | _, _ => NaN
  end.

(** Rounding towards zero. *)
Definition Qtrunc (q : Q) : Z :=
  if Qle_bool 0 q then Qfloor q else Qceiling q.

(** [x % y]: the remainder has the sign of the dividend. *)
Definition rem (x y : number) : number :=
  match x, y with
  | Fin a, Fin b =>
      if Qeq_bool b 0 then NaN
      else Fin (a - b * inject_Z (Qtrunc (a / b)))
  | _, _ => NaN
  end.

(** [Math.floor]; the result is an integer or [NaN] ([None]). *)
Definition Math_floor (x : number) : option Z :=
  match x with NaN => None | Fin q => Some (Qfloor q) end.

(** A whole JavaScript number: [NaN], an infinity, or an integer that is
    a double. *)
Inductive integral : Type :=
| INaN
| IInf (negative : bool)
| IInt (z : Z).

(** 2^53: below it every integer is a double. *)
Definition two53 : Z := 9007199254740992.

(** The double nearest to the integer [a >= 0], ties to even; [None] when
    that is beyond the largest double. *)
Definition nearest_double (a : Z) : option Z :=
  if a <? two53 then Some a
  else
    let e := Z.log2 a - 52 in
    let q := Z.shiftr a e in
    let r := a - Z.shiftl q e in
    let half := Z.shiftl 1 (e - 1) in
    let m := if (half <? r) || ((r =? half) && Z.odd q) then q + 1 else q in
    let v := Z.shiftl m e in
    if Z.shiftl 1 1024 <=? v then None else Some v.

(** The Number value for a mathematical integer. *)
Definition to_double (z : Z) : integral :=
  match nearest_double (Z.abs z) with
  | Some v => IInt (Z.sgn z * v)
  | None => IInf (z <? 0)
  end.

Definition isNaN_integral (x : integral) : bool :=
  match x with INaN => true | _ => false end.

(** [x * y] on whole numbers. *)
Definition mul (x y : integral) : integral :=
  match x, y with
  | IInt a, IInt b => to_double (a * b)
  | IInf s, IInt b | IInt b, IInf s =>
      if b =? 0 then INaN else IInf (xorb s (b <? 0))
  | IInf s, IInf t => IInf (xorb s t)
  | _, _ => INaN
  end.

(** [x + y] on whole numbers. *)
Definition add (x y : integral) : integral :=
  match x, y with
  | IInt a, IInt b => to_double (a + b)
  | IInf s, IInt _ | IInt _, IInf s => IInf s
  | IInf s, IInf t => if Bool.eqb s t then IInf s else INaN
  | _, _ => INaN
  end.

(** [Math.max(x, y)] and [Math.min(x, y)]: [NaN] if either is. *)
Definition Math_max (x y : integral) : integral :=
  match x, y with
  | INaN, _ | _, INaN => INaN
  | IInf false, _ | _, IInf false => IInf false
  | IInf true, v | v, IInf true => v
  | IInt a, IInt b => IInt (Z.max a b)
  end.

Definition Math_min (x y : integral) : integral :=
  match x, y with
  | INaN, _ | _, INaN => INaN
  | IInf true, _ | _, IInf true => IInf true
  | IInf false, v | v, IInf false => v
  | IInt a, IInt b => IInt (Z.min a b)
  end.

Definition digit_char (d : Z) : ascii := ascii_of_nat (48 + Z.to_nat d).

(** Decimal digits of a non-negative integer, most significant first. *)
Equations? digits (n : Z) : string by wf (Z.to_nat (Z.log2 n)) lt :=
  digits n with Z_lt_dec n 10 => {
    | left _ := String (digit_char n) EmptyString;
    | right _ := digits (n / 10) ++ String (digit_char (n mod 10)) EmptyString }.
Proof.
  assert (Z.log2 (n / 10) <= Z.log2 (n / 2 ^ 1)) as H1.
  { apply Z.log2_le_mono. apply Z.div_le_compat_l; lia. }
  rewrite <- Z.shiftr_div_pow2, Z.log2_shiftr in H1 by lia.
  assert (3 <= Z.log2 n) by (apply Z.log2_le_pow2; lia).
  pose proof (Z.log2_nonneg (n / 10)). lia.
Qed.

(** The decimal text [v] that [Number.prototype.toString] picks for the
    whole double [x >= 2^53]: the multiple of the largest power of ten
    [10^p] that still converts back to [x]; of two such multiples the one
    nearer to [x], and of two equally near the one with the even
    quotient.  [p] runs down from [digits x - 1], that is from one
    significant digit up. *)
Fixpoint shortest_from (p : nat) (x : Z) : Z :=
  match p with
  | O => x
  | S p' =>
      let pw := 10 ^ Z.of_nat p in
      let lo := (x / pw) * pw in
      let hi := lo + pw in
      let ok_lo := match to_double lo with IInt y => y =? x | _ => false end in
      let ok_hi := match to_double hi with IInt y => y =? x | _ => false end in
      if ok_lo && ok_hi then
        if x - lo <? hi - x then lo
        else if hi - x <? x - lo then hi
        else if Z.even (x / pw) then lo else hi
      else if ok_lo then lo
      else if ok_hi then hi
      else shortest_from p' x
  end.

Definition shortest (x : Z) : Z :=
  shortest_from (String.length (digits x) - 1) x.

Fixpoint strip_zeros_rev (s : list ascii) : list ascii :=
  match s with
  | "0"%char :: r => strip_zeros_rev r
  | _ => s
  end.

(** The significant digits of a decimal text: its trailing zeros off. *)
Definition significant (s : string) : string :=
  string_of_list_ascii
    (rev (strip_zeros_rev (rev (list_ascii_of_string s)))).

(** [Number.prototype.toString] on a whole double [a >= 0]: plain digits
    below 10^21, exponent notation from there on. *)
Definition magnitude_text (a : Z) : string :=
  if a <? two53 then digits a
  else
    let text := digits (shortest a) in
    if (String.length text <=? 21)%nat then text
    else
      match significant text with
      | EmptyString => text
      | String d rest =>
          String d (match rest with
                    | EmptyString => EmptyString
                    | _ => String "." rest
                    end)
          ++ "e+" ++ digits (Z.of_nat (String.length text) - 1)
      end.

(** [Number.prototype.toString] on the result of [Math.floor], [NaN] or
    an integer; the integer is the floor of an exact quotient, and what is
    printed is the double nearest to it. *)
Definition toString (x : option Z) : string :=
  match x with
  | None => "NaN"
  | Some n =>
      match to_double n with
      | INaN => "NaN"
      | IInf negative => if negative then "-Infinity" else "Infinity"
      | IInt v =>
          if v <? 0 then String "-" (magnitude_text (- v)) else magnitude_text v
      end
  end.

Fixpoint repeat_char (c : ascii) (k : nat) : string :=
  match k with
  | O => EmptyString
  | S k' => String c (repeat_char c k')
  end.

(** [s.padStart(target, c)] for a one-character pad string. *)
Definition padStart (target : nat) (c : ascii) (s : string) : string :=
  repeat_char c (target - String.length s) ++ s.

(** [s.split(sep)] for a one-character separator: never empty. *)
Fixpoint split (sep : ascii) (s : string) : list string :=
  match s with
  | EmptyString => [EmptyString]
  | String c r =>
      if Ascii.eqb c sep then EmptyString :: split sep r
      else match split sep r with
           | h :: t => String c h :: t
           | [] => [String c EmptyString]
           end
  end.

(** White space skipped by [parseInt]: TAB, LF, VT, FF, CR, SP and the
    no-break space U+00A0 (the other white space of the language lies
    above code unit 255). *)
Definition isWhiteSpace (c : ascii) : bool :=
  let n := nat_of_ascii c in
  ((9 <=? n) && (n <=? 13) || (n =? 32) || (n =? 160))%nat.

Fixpoint trimStart (s : string) : string :=
  match s with
  | EmptyString => EmptyString
  | String c r => if isWhiteSpace c then trimStart r else s
  end.

Definition digit_value (c : ascii) : option Z :=
  let n := nat_of_ascii c in
  if ((48 <=? n) && (n <=? 57))%nat then Some (Z.of_nat n - 48) else None.

(** Longest prefix of decimal digits; [None] when there is none. *)
Fixpoint parse_digits (acc : option Z) (s : string) : option Z :=
  match s with
  | EmptyString => acc
  | String c r =>
      match digit_value c with
      | Some d =>
          parse_digits
            (Some (10 * match acc with Some a => a | None => 0 end + d)) r
      | None => acc
      end
  end.

(** The Number value of a run of digits; [NaN] when the run is empty. *)
Definition of_run (run : option Z) (negative : bool) : integral :=
  match run with
  | Some z => to_double (if negative then - z else z)
  | None => INaN
  end.

(** [parseInt(s, 10)]: leading white space, an optional sign, then the
    longest run of digits, converted to the nearest double (the standard
    lets an engine read only the first 20 significant digits of a longer
    run; the conversion here is the exact one). *)
Definition parseInt (s : string) : integral :=
  match trimStart s with
  | String "-" r => of_run (parse_digits None r) true
  | String "+" r => of_run (parse_digits None r) false
  | t => of_run (parse_digits None t) false
  end.

(** [a || b] on strings: the empty string is falsy. *)
Definition or_else (a b : string) : string :=
  match a with EmptyString => b | _ => a end.

Fixpoint starts_with (p s : string) : bool :=
  match p, s with
  | EmptyString, _ => true
  | String a p', String b s' => Ascii.eqb a b && starts_with p' s'
  | String _ _, EmptyString => false
  end.

(** [s] has [p] as a substring. *)
Fixpoint includes (p s : string) : bool :=
  starts_with p s ||
  match s with
  | EmptyString => false
  | String _ s' => includes p s'
  end.

(** Strings made of decimal digits only. *)
Fixpoint all_digits (s : string) : bool :=
  match s with
  | EmptyString => true
  | String c r =>
      match digit_value c with
      | Some _ => all_digits r
      | None => false
      end
  end.

(** A [parse_digits] accumulator that has seen nothing but zeros so far. *)
Definition fresh (acc : option Z) : Prop := acc = None \/ acc = Some 0.

End Js.

(** ** Time helpers (App.jsx, lines 20-38) *)

(** [formatTime]: seconds to MM:SS. *)
Definition formatTime (seconds : Js.number) : string :=
  if Js.isNaN seconds || Js.ltb seconds (Js.of_Z 0) then "00:00"
  else
    let mins := Js.Math_floor (Js.div seconds (Js.of_Z 60)) in
    let secs := Js.Math_floor (Js.rem seconds (Js.of_Z 60)) in
    Js.padStart 2 "0" (Js.toString mins) ++ ":" ++
    Js.padStart 2 "0" (Js.toString secs).

(** [parseTimeInput]: MM:SS to seconds, 0 on anything malformed. *)
Definition parseTimeInput (timeStr : string) : Js.integral :=
  match Js.split ":" timeStr with
  | [p0; p1] =>
      let mins := Js.parseInt p0 in
      let secs := Js.parseInt p1 in
      if Js.isNaN_integral mins || Js.isNaN_integral secs then Js.IInt 0
      else Js.add (Js.mul mins (Js.IInt 60)) secs
  | _ => Js.IInt 0
  end.

(** ** The [TimeInput] component (App.jsx, lines 55-91) *)

Module TimeInput.

(** What one blur does: the single call of the [onChange] prop and the
    text put back into the field. *)
Record Blur : Type := {
  onChange : Js.integral;
  inputValue : string
}.

(** The clamped value as an argument of [formatTime].  With a whole [max]
    the clamp is never infinite, so the last case is never used. *)
Definition shown (validSeconds : Js.integral) : Js.number :=
  match validSeconds with
  | Js.IInt z => Js.of_Z z
  | Js.INaN => Js.NaN
  | Js.IInf _ => Js.NaN
  end.

(** [handleBlur] for the typed text [inputValue] and the [max] prop. *)
Definition handleBlur (max : Z) (inputValue : string) : Blur :=
  let seconds := parseTimeInput inputValue in
  let validSeconds := Js.Math_min (Js.Math_max (Js.IInt 0) seconds) (Js.IInt max) in
  {| onChange := validSeconds;
     inputValue := formatTime (shown validSeconds) |}.

(** The [useEffect] on [value]: the field shows the prop again. *)
Definition sync (value : Z) : string := formatTime (Js.of_Z value).

(** [handleChange]: the field holds what was typed. *)
Definition handleChange (typed : string) : string := typed.

End TimeInput.

(** ** The network as the client sees it *)

Module Net.

(** A settled promise. *)
Inductive Settled (A : Type) : Type :=
| Resolved (a : A)
| Rejected (message : string).
Arguments Resolved {A} a.
Arguments Rejected {A} message.

(** A property value of the object handed to [JSON.stringify]. *)
Inductive Value : Type :=
| Undefined
| Str (s : string)
| Num (z : Z).

(** A member value of the serialised body. *)
Inductive Json : Type :=
| JString (s : string)
| JNumber (z : Z).

(** [JSON.stringify] on a flat object: members whose value is
    [undefined] are dropped, the others keep their order. *)
Fixpoint JSON_stringify (o : list (string * Value)) : list (string * Json) :=
  match o with
  | [] => []
  | (k, Undefined) :: o' => JSON_stringify o'
  | (k, Str s) :: o' => (k, JString s) :: JSON_stringify o'
  | (k, Num z) :: o' => (k, JNumber z) :: JSON_stringify o'
  end.

Fixpoint member (k : string) (b : list (string * Json)) : option Json :=
  match b with
  | [] => None
  | (k', v) :: b' => if String.eqb k k' then Some v else member k b'
  end.

Record Request : Type := {
  url : string;
  method : string;
  headers : list (string * string);
  body : list (string * Json)
}.

(** What [response.json()] can resolve to: any JSON value.  A number is
    given by the two things the code asks of it: whether it is zero, and
    the text [String()] makes of it. *)
#[warnings="-register-all"]
Inductive JsonValue : Type :=
| VNull
| VBool (b : bool)
| VNumber (zero : bool) (text : string)
| VString (s : string)
| VArray (items : list JsonValue)
| VObject (members : list (string * JsonValue)).

(** The message of the TypeError for a member access on [null], and of the
    one for an object that cannot be made a string (the wording is the
    engine's; this is V8's). *)
Definition TypeError_null_member : string :=
  "Cannot read properties of null (reading 'error')".

Definition TypeError_to_primitive : string :=
  "Cannot convert object to primitive value".

(** The own member [key] of a parsed object: of members with the same
    name [JSON.parse] keeps the last. *)
Fixpoint own_member (key : string) (members : list (string * JsonValue))
  : option JsonValue :=
  match members with
  | [] => None
  | (k, v) :: rest =>
      match own_member key rest with
      | Some later => Some later
      | None => if String.eqb key k then Some v else None
      end
  end.

(** [errorData.error]: a TypeError on [null], [undefined] ([None]) on
    every other value that has no such member. *)
Definition get_error (errorData : JsonValue) : Settled (option JsonValue) :=
  match errorData with
  | VNull => Rejected TypeError_null_member
  | VObject members => Resolved (own_member "error" members)
  | _ => Resolved None
  end.

(** Truthiness of a parsed value. *)
Definition truthy_value (v : JsonValue) : bool :=
  match v with
  | VNull => false
  | VBool b => b
  | VNumber zero _ => negb zero
  | VString s => negb (String.eqb s EmptyString)
  | VArray _ | VObject _ => true
  end.

(** [String(v)], as [new Error(v)] applies it: an array is joined with
    commas, [null] items giving nothing; an object is "[object Object]"
    unless it has a [toString] member of its own, which JSON cannot make
    callable, and then the conversion throws. *)
Fixpoint to_text (v : JsonValue) : Settled string :=
  match v with
  | VNull => Resolved "null"
  | VBool true => Resolved "true"
  | VBool false => Resolved "false"
  | VNumber _ text => Resolved text
  | VString s => Resolved s
  | VArray items =>
      (fix join (l : list JsonValue) : Settled string :=
         match l with
         | [] => Resolved EmptyString
         | x :: rest =>
             match (match x with VNull => Resolved EmptyString | _ => to_text x end) with
             | Rejected m => Rejected m
             | Resolved a =>
                 match rest with
                 | [] => Resolved a
                 | _ =>
                     match join rest with
                     | Rejected m => Rejected m
                     | Resolved b => Resolved (a ++ "," ++ b)
                     end
                 end
             end
         end) items
  | VObject members =>
      match own_member "toString" members with
      | Some _ => Rejected TypeError_to_primitive
      | None => Resolved "[object Object]"
      end
  end.

(** [new Error(member || fallback).message]: the member when it is truthy,
    the fallback otherwise, as a string. *)
Definition error_message (member : option JsonValue) (fallback : string)
  : Settled string :=
  match member with
  | Some v => if truthy_value v then to_text v else Resolved fallback
  | None => Resolved fallback
  end.

Definition Blob : Type := string.

Record Response : Type := {
  ok : bool;
  (** [response.headers.get("X-Video-Title")], [None] for [null] *)
  X_Video_Title : option string;
  (** what [response.json()] settles to *)
  json : Settled JsonValue;
  (** what [response.blob()] settles to *)
  blob : Settled Blob
}.

(** The environment of one handler run. *)
Record Env : Type := {
  fetch : Request -> Settled Response;
  createObjectURL : Blob -> string
}.

(** [s || undefined] on a string. *)
Definition str_or_undefined (s : string) : Value :=
  match s with EmptyString => Undefined | _ => Str s end.

(** [n || d] on a number: 0 is falsy. *)
Definition num_or (n : Z) (d : Value) : Value :=
  if n =? 0 then d else Num n.

(** [v || d] on an optional string: [undefined] and the empty string are
    falsy. *)
Definition opt_or (v : option string) (d : string) : string :=
  match v with
  | Some s => Js.or_else s d
  | None => d
  end.

End Net.

(** ** The preview audio element *)

Module Audio.

Record t : Type := {
  paused : bool;
  currentTime : Js.number;
  duration : Js.number;
  src : string
}.

Definition pause (a : t) : t :=
  {| paused := true; currentTime := currentTime a;
     duration := duration a; src := src a |}.

Definition play (a : t) : t :=
  {| paused := false; currentTime := currentTime a;
     duration := duration a; src := src a |}.

Definition set_currentTime (x : Js.number) (a : t) : t :=
  {| paused := paused a; currentTime := x;
     duration := duration a; src := src a |}.

Definition set_src (x : string) (a : t) : t :=
  {| paused := paused a; currentTime := currentTime a;
     duration := duration a; src := x |}.

End Audio.

(** ** The [App] component (App.jsx, lines 93-607) *)

Module App.

Import Net.

Record FormData : Type := {
  url : string;
  title : string;
  artist : string;
  album : string;
  genre : string;
  start : Z;
  end_ : Z
}.

(** The [useState] cells of [App]. *)
Record State : Type := {
  formData : FormData;
  status : string;
  isConverted : bool;
  isPlaying : bool;
  error : option string;
  rangeValues : Z * Z;
  audioDuration : Z;
  audioUrl : string;
  currentTime : Js.number;
  videoTitle : string
}.

(** The anchor element clicked by [handleDownload]. *)
Record Anchor : Type := {
  href : string;
  download : string
}.

(** Everything a handler can read or change: the state cells, the audio
    element behind [audioRef], and a log of what left the page. *)
Record World : Type := {
  state : State;
  audioRef : option Audio.t;
  requests : list Request;
  clicked : list Anchor
}.

Definition initialState : State :=
  {| formData := {| url := ""; title := ""; artist := ""; album := "";
                    genre := ""; start := 0; end_ := 0 |};
     status := ""; isConverted := false; isPlaying := false;
     error := None; rangeValues := (0, 1000); audioDuration := 1000;
     audioUrl := ""; currentTime := Js.of_Z 0; videoTitle := "" |}.

Definition initialWorld : World :=
  {| state := initialState; audioRef := None; requests := []; clicked := [] |}.

(** *** A state and exception monad for handler bodies *)

Inductive Outcome (A : Type) : Type :=
| Return (a : A)
| Throw (message : string).
Arguments Return {A} a.
Arguments Throw {A} message.

Definition M (A : Type) : Type := World -> Outcome A * World.

Definition ret {A} (a : A) : M A := fun w => (Return a, w).

Definition bind {A B} (c : M A) (k : A -> M B) : M B :=
  fun w =>
    match c w with
    | (Return a, w') => k a w'
    | (Throw m, w') => (Throw m, w')
    end.

Definition throw {A} (message : string) : M A := fun w => (Throw message, w).

Definition try_catch {A} (c : M A) (handler : string -> M A) : M A :=
  fun w =>
    match c w with
    | (Return a, w') => (Return a, w')
    | (Throw m, w') => handler m w'
    end.

(** [await p] for an already settled promise. *)
Definition await {A} (p : Settled A) : M A :=
  match p with
  | Resolved a => ret a
  | Rejected m => throw m
  end.

Declare Scope handler_scope.
Delimit Scope handler_scope with handler.
Notation "x <- c ;; k" := (bind c (fun x => k))
  (at level 61, c at next level, right associativity) : handler_scope.
Notation "c ;; k" := (bind c (fun _ => k))
  (at level 61, right associativity) : handler_scope.
Local Open Scope handler_scope.

Definition modify (f : State -> State) : M unit :=
  fun w => (Return tt,
            {| state := f (state w); audioRef := audioRef w;
               requests := requests w; clicked := clicked w |}).

Definition setFormData (f : FormData -> FormData) : M unit :=
  modify (fun s =>
    {| formData := f (formData s); status := status s;
       isConverted := isConverted s; isPlaying := isPlaying s;
       error := error s; rangeValues := rangeValues s;
       audioDuration := audioDuration s; audioUrl := audioUrl s;
       currentTime := currentTime s; videoTitle := videoTitle s |}).

Definition setStatus (v : string) : M unit :=
  modify (fun s =>
    {| formData := formData s; status := v;
       isConverted := isConverted s; isPlaying := isPlaying s;
       error := error s; rangeValues := rangeValues s;
       audioDuration := audioDuration s; audioUrl := audioUrl s;
       currentTime := currentTime s; videoTitle := videoTitle s |}).

Definition setIsConverted (v : bool) : M unit :=
  modify (fun s =>
    {| formData := formData s; status := status s;
       isConverted := v; isPlaying := isPlaying s;
       error := error s; rangeValues := rangeValues s;
       audioDuration := audioDuration s; audioUrl := audioUrl s;
       currentTime := currentTime s; videoTitle := videoTitle s |}).

Definition setIsPlaying (v : bool) : M unit :=
  modify (fun s =>
    {| formData := formData s; status := status s;
       isConverted := isConverted s; isPlaying := v;
       error := error s; rangeValues := rangeValues s;
       audioDuration := audioDuration s; audioUrl := audioUrl s;
       currentTime := currentTime s; videoTitle := videoTitle s |}).

Definition setError (v : option string) : M unit :=
  modify (fun s =>
    {| formData := formData s; status := status s;
       isConverted := isConverted s; isPlaying := isPlaying s;
       error := v; rangeValues := rangeValues s;
       audioDuration := audioDuration s; audioUrl := audioUrl s;
       currentTime := currentTime s; videoTitle := videoTitle s |}).

Definition setRangeValues (v : Z * Z) : M unit :=
  modify (fun s =>
    {| formData := formData s; status := status s;
       isConverted := isConverted s; isPlaying := isPlaying s;
       error := error s; rangeValues := v;
       audioDuration := audioDuration s; audioUrl := audioUrl s;
       currentTime := currentTime s; videoTitle := videoTitle s |}).

Definition setAudioDuration (v : Z) : M unit :=
  modify (fun s =>
    {| formData := formData s; status := status s;
       isConverted := isConverted s; isPlaying := isPlaying s;
       error := error s; rangeValues := rangeValues s;
       audioDuration := v; audioUrl := audioUrl s;
       currentTime := currentTime s; videoTitle := videoTitle s |}).

Definition setAudioUrl (v : string) : M unit :=
  modify (fun s =>
    {| formData := formData s; status := status s;
       isConverted := isConverted s; isPlaying := isPlaying s;
       error := error s; rangeValues := rangeValues s;
       audioDuration := audioDuration s; audioUrl := v;
       currentTime := currentTime s; videoTitle := videoTitle s |}).

Definition setCurrentTime (v : Js.number) : M unit :=
  modify (fun s =>
    {| formData := formData s; status := status s;
       isConverted := isConverted s; isPlaying := isPlaying s;
       error := error s; rangeValues := rangeValues s;
       audioDuration := audioDuration s; audioUrl := audioUrl s;
       currentTime := v; videoTitle := videoTitle s |}).

Definition setVideoTitle (v : string) : M unit :=
  modify (fun s =>
    {| formData := formData s; status := status s;
       isConverted := isConverted s; isPlaying := isPlaying s;
       error := error s; rangeValues := rangeValues s;
       audioDuration := audioDuration s; audioUrl := audioUrl s;
       currentTime := currentTime s; videoTitle := v |}).

(** [audioRef.current]. *)
Definition audioRef_current : M (option Audio.t) :=
  fun w => (Return (audioRef w), w).

(** Mutate the element behind [audioRef.current], when there is one. *)
Definition onAudio (f : Audio.t -> Audio.t) : M unit :=
  fun w => (Return tt,
            {| state := state w; audioRef := option_map f (audioRef w);
               requests := requests w; clicked := clicked w |}).

(** [fetch(url, init)]: the request leaves the page, the environment
    settles the promise. *)
Definition do_fetch (env : Env) (r : Request) : M Response :=
  fun w =>
    let w' := {| state := state w; audioRef := audioRef w;
                 requests := requests w ++ [r]; clicked := clicked w |} in
    await (fetch env r) w'.

(** [a.click()] on a detached download anchor. *)
Definition click (a : Anchor) : M unit :=
  fun w => (Return tt,
            {| state := state w; audioRef := audioRef w;
               requests := requests w; clicked := clicked w ++ [a] |}).

(** *** Talking to the conversion endpoint *)

(** The first argument of both [fetch] calls, as written: a double-quoted
    string, so the placeholder stays as it is. *)
Definition fetch_url : string := "${API_BASE}/api/convert".

(** [formData.url.match(/youtube\.com|youtu\.be/)] is not [null]. *)
Definition matches_youtube (u : string) : bool :=
  Js.includes "youtube.com" u || Js.includes "youtu.be" u.

Definition post (b : list (string * Value)) : Request :=
  {| Net.url := fetch_url;
     method := "POST";
     headers := [("Content-Type", "application/json")];
     body := JSON_stringify b |}.

(** The object literal serialised by [handleConvert]. *)
Definition convertBody (c : State) : list (string * Value) :=
  let f := formData c in
  [ ("url", Str (url f));
    ("title", str_or_undefined (title f));
    ("artist", str_or_undefined (artist f));
    ("album", str_or_undefined (album f));
    ("genre", str_or_undefined (genre f));
    ("start", num_or (start f) (Num 0));
    ("end", num_or (end_ f) Undefined) ].

(** The object literal serialised by [handleDownload]. *)
Definition downloadBody (c : State) : list (string * Value) :=
  let f := formData c in
  [ ("url", Str (url f));
    ("title", str_or_undefined (title f));
    ("artist", str_or_undefined (artist f));
    ("album", str_or_undefined (album f));
    ("genre", str_or_undefined (genre f));
    ("start", Num (fst (rangeValues c)));
    ("end", Num (snd (rangeValues c))) ].

(** [handleConvert], run from a render whose state is [c]. *)
Definition handleConvert (env : Env) (c : State) : M unit :=
  setStatus "Converting..." ;;
  setError None ;;
  setIsConverted false ;;
  setAudioUrl "" ;;
  setCurrentTime (Js.of_Z 0) ;;
  setRangeValues (0, 1000) ;;
  setAudioDuration 1000 ;;
  setVideoTitle "" ;;
  onAudio (fun a =>
    Audio.set_src "" (Audio.set_currentTime (Js.of_Z 0) (Audio.pause a))) ;;
  setIsPlaying false ;;
  if (url (formData c) =? "")%string || negb (matches_youtube (url (formData c)))
  then
    setError (Some "Please enter a valid YouTube URL") ;;
    setStatus ""
  else
    try_catch
      (response <- do_fetch env (post (convertBody c)) ;;
       (if negb (ok response) then
          errorData <- await (json response) ;;
          error <- await (get_error errorData) ;;
          message <- await (error_message error "Conversion failed") ;;
          throw message
        else ret tt) ;;
       let ytTitle := X_Video_Title response in
       setVideoTitle (opt_or ytTitle " ") ;;
       blob <- await (blob response) ;;
       let url := createObjectURL env blob in
       setAudioUrl url ;;
       setIsConverted true ;;
       setStatus "Conversion complete!")
      (fun message =>
         setError (Some message) ;;
         setStatus "Failed to convert").

(** [handleDownload], run from a render whose state is [c].  Of the
    detached anchor only the click is recorded; adding it to the document,
    removing it and revoking the object URL change nothing the model sees. *)
Definition handleDownload (env : Env) (c : State) : M unit :=
  if (audioUrl c =? "")%string then ret tt
  else
    setStatus "Preparing download..." ;;
    try_catch
      (response <- do_fetch env (post (downloadBody c)) ;;
       (if negb (ok response) then
          errorData <- await (json response) ;;
          error <- await (get_error errorData) ;;
          message <- await (error_message error "Download preparation failed") ;;
          throw message
        else ret tt) ;;
       blob <- await (blob response) ;;
       let downloadUrl := createObjectURL env blob in
       click {| href := downloadUrl;
                download := Js.or_else (title (formData c)) "download" ++ ".mp3" |} ;;
       setStatus "Download complete!")
      (fun message =>
         setError (Some message) ;;
         setStatus "Failed to download").

(** *** Form, player and trim handlers *)

(** The [name] attributes of the inputs wired to [handleChange]. *)
Inductive Field : Type := f_url | f_title | f_artist | f_album | f_genre.

(** [{...prev, [name]: value}]. *)
Definition assign (name : Field) (value : string) (prev : FormData) : FormData :=
  {| url := match name with f_url => value | _ => url prev end;
     title := match name with f_title => value | _ => title prev end;
     artist := match name with f_artist => value | _ => artist prev end;
     album := match name with f_album => value | _ => album prev end;
     genre := match name with f_genre => value | _ => genre prev end;
     start := start prev;
     end_ := end_ prev |}.

Definition handleChange (name : Field) (value : string) : M unit :=
  setFormData (assign name value).

Definition togglePlay (c : State) : M unit :=
  a <- audioRef_current ;;
  match a with
  | None => ret tt
  | Some _ =>
      (if isPlaying c then onAudio Audio.pause
       else
         onAudio (Audio.set_currentTime (Js.of_Z (fst (rangeValues c)))) ;;
         onAudio Audio.play) ;;
      setIsPlaying (negb (isPlaying c))
  end.

Definition handleStartTimeChange (c : State) (seconds : Z) : M unit :=
  let newStart := Z.min seconds (snd (rangeValues c) - 1) in
  setRangeValues (newStart, snd (rangeValues c)) ;;
  a <- audioRef_current ;;
  match a with
  | Some _ =>
      if isPlaying c then onAudio (Audio.set_currentTime (Js.of_Z newStart))
      else ret tt
  | None => ret tt
  end.

Definition handleEndTimeChange (c : State) (seconds : Z) : M unit :=
  let newEnd := Z.max seconds (fst (rangeValues c) + 1) in
  setRangeValues (fst (rangeValues c), Z.min newEnd (audioDuration c)).

(** [updateTime], the body of the 100 ms interval. *)
Definition updateTime (c : State) : M unit :=
  a <- audioRef_current ;;
  match a with
  | None => ret tt
  | Some a =>
      setCurrentTime (Audio.currentTime a) ;;
      if Js.geb (Audio.currentTime a) (Js.of_Z (snd (rangeValues c))) then
        onAudio Audio.pause ;;
        setIsPlaying false ;;
        onAudio (Audio.set_currentTime (Js.of_Z (fst (rangeValues c))))
      else ret tt
  end.

(** The [onTimeUpdate] prop of the audio element. *)
Definition onTimeUpdate (c : State) : M unit :=
  a <- audioRef_current ;;
  match a with
  | None => ret tt
  | Some a =>
      if Js.geb (Audio.currentTime a) (Js.of_Z (snd (rangeValues c))) then
        onAudio Audio.pause ;;
        setIsPlaying false ;;
        onAudio (Audio.set_currentTime (Js.of_Z (fst (rangeValues c))))
      else ret tt
  end.

Definition onEnded : M unit := setIsPlaying false.

(** A number is truthy unless it is [NaN] or zero. *)
Definition truthy (x : Js.number) : bool :=
  match x with
  | Js.NaN => false
  | Js.Fin q => negb (Qeq_bool q 0)
  end.

(** [handleMetadata], the [loadedmetadata] listener of the effect. *)
Definition handleMetadata : M unit :=
  a <- audioRef_current ;;
  match a with
  | None => ret tt
  | Some a =>
      let duration := Audio.duration a in
      if truthy duration && negb (Js.isNaN duration) then
        match Js.Math_floor duration with
        | Some roundedDuration =>
            setAudioDuration roundedDuration ;;
            setRangeValues (0, roundedDuration)
        | None => ret tt
        end
      else ret tt
  end.

(** The two listeners of the element's [loadedmetadata] event, in the
    order they run: the [onLoadedMetadata] prop (App.jsx, lines 526-532),
    attached when the element is created, then [handleMetadata], attached
    by the effect after the commit.  The prop stores
    [duration || 1000] and the range [0, floor] of it.  With a truthy
    duration [handleMetadata] at once replaces the unrounded clip length
    by its floor, within the same batch of updates, so the state between
    the two is never rendered and is not represented here; with a duration
    that is [NaN] or 0 only the prop writes, 1000 and [0, 1000]. *)
Definition onLoadedMetadata_then_handleMetadata : M unit :=
  a <- audioRef_current ;;
  match a with
  | None => ret tt
  | Some a =>
      if truthy (Audio.duration a) then handleMetadata
      else
        setAudioDuration 1000 ;;
        setRangeValues (0, 1000)
  end.

(** The click handler of the seek track, given the computed [clickTime]. *)
Definition seek (c : State) (clickTime : Z) : M unit :=
  a <- audioRef_current ;;
  match a with
  | None => ret tt
  | Some _ =>
      onAudio (Audio.set_currentTime (Js.of_Z clickTime)) ;;
      setCurrentTime (Js.of_Z clickTime) ;;
      if negb (isPlaying c) then
        onAudio Audio.play ;;
        setIsPlaying true
      else ret tt
  end.

(** *** What the page shows *)


(** [error && <ErrorMessage message={error} />]. *)
Definition displayedError (s : State) : option string :=
  match error s with
  | Some m => if (m =? "")%string then None else Some m
  | None => None
  end.

(** The two [TimeInput]s of the page (App.jsx, lines 480-491): what a blur
    of each hands to its [onChange] prop, [handleStartTimeChange] for the
    start input and [handleEndTimeChange] for the end input. *)
Definition startInput (c : State) (text : string) : TimeInput.Blur :=
  TimeInput.handleBlur (audioDuration c - 1) text.

Definition endInput (c : State) (text : string) : TimeInput.Blur :=
  TimeInput.handleBlur (audioDuration c) text.

(** *** The page as a transition system

    The events are the calls of the page's handlers.  The range and the
    clip length are whole seconds, so the commits of the two time inputs
    are events when they are whole numbers; a blur that commits [NaN]
    puts [NaN] into the range, which this state cannot hold, and is not
    among the events. *)

Inductive Event : Type :=
| Change (name : Field) (value : string)
| Convert (env : Env)
| Download (env : Env)
| TogglePlay
(** the start input commits a whole number of seconds *)
| StartTimeChange (seconds : Z)
(** the end input commits a whole number of seconds *)
| EndTimeChange (seconds : Z)
| Slide (values : Z * Z)
| Tick
| TimeUpdate
| Ended
(** the element fires [loadedmetadata] *)
| LoadedMetadata
(** the effect finds the metadata already loaded ([readyState >= 1]) *)
| MetadataReady
| Seek (clickTime : Z)
| Dismiss
(** the element is mounted, unmounted, or plays on by itself *)
| Media (a : option Audio.t).

Definition handler (e : Event) (c : State) : M unit :=
  match e with
  | Change name value => handleChange name value
  | Convert env => handleConvert env c
  | Download env => handleDownload env c
  | TogglePlay => togglePlay c
  | StartTimeChange seconds => handleStartTimeChange c seconds
  | EndTimeChange seconds => handleEndTimeChange c seconds
  | Slide values => setRangeValues values
  | Tick => updateTime c
  | TimeUpdate => onTimeUpdate c
  | Ended => onEnded
  | LoadedMetadata => onLoadedMetadata_then_handleMetadata
  | MetadataReady => handleMetadata
  | Seek clickTime => seek c clickTime
  | Dismiss => setError None
  | Media a =>
      fun w => (Return tt,
                {| state := state w; audioRef := a;
                   requests := requests w; clicked := clicked w |})
  end.

(** One event: the handler runs in the closure of the current render. *)
Definition dispatch (e : Event) (w : World) : World :=
  snd (handler e (state w) w).

Definition run (es : list Event) (w : World) : World :=
  fold_left (fun w e => dispatch e w) es w.

(** The requests a handler run adds to the log. *)
Definition sent (h : M unit) (w : World) : list Request :=
  skipn (List.length (requests w)) (requests (snd (h w))).

(** *** Relations between the world before and after a handler *)

(** Every run of [m] takes a world to an [R]-related one. *)
Definition keeps (R : World -> World -> Prop) {A} (m : M A) : Prop :=
  forall w, R w (snd (m w)).


(** Nothing was sent. *)
Definition same_log (w w' : World) : Prop := requests w' = requests w.



End App.

(** ** Notions used to state the properties *)

Module Spec.


(** The endpoint the client is meant to call: [/api/convert] under the API
    base, that is the template literal [`${API_BASE}/api/convert`]. *)
Definition api_convert_endpoint (API_BASE : string) : string :=
  API_BASE ++ "/api/convert".

Fixpoint drop (k : nat) (s : string) : string :=
  match k, s with
  | S k', String _ s' => drop k' s'
  | _, _ => s
  end.

(** The authority of a URL: what follows the scheme, up to the first
    [/], [?], [#] or [:]. *)
Fixpoint authority (s : string) : string :=
  match s with
  | EmptyString => EmptyString
  | String c r =>
      if (Ascii.eqb c "/" || Ascii.eqb c "?" || Ascii.eqb c "#" || Ascii.eqb c ":")%bool
      then EmptyString
      else String c (authority r)
  end.

Definition host (u : string) : string :=
  if Js.starts_with "https://" u then authority (drop 8 u)
  else if Js.starts_with "http://" u then authority (drop 7 u)
  else authority u.

Fixpoint ends_with (suffix s : string) : bool :=
  String.eqb suffix s ||
  match s with
  | EmptyString => false
  | String _ s' => ends_with suffix s'
  end.

(** A genuine video-hosting URL: its host is [youtube.com], [youtu.be] or
    a subdomain of one of them. *)
Definition genuine_video_hosting_url (u : string) : bool :=
  let h := host u in
  (h =? "youtube.com")%string || ends_with ".youtube.com" h ||
  (h =? "youtu.be")%string || ends_with ".youtu.be" h.

(** A metadata field [value] is carried by the body [b] under [key]: the
    member is there exactly when the value is not empty, and then it is
    that value. *)
Definition carries (b : list (string * Net.Json)) (key value : string) : Prop :=
  (Net.member key b = None <-> value = EmptyString) /\
  (value <> EmptyString -> Net.member key b = Some (Net.JString value)).

End Spec.

(** ** Sample environments *)

Module Sample.

Import Net.

Definition answer (r : Response) : Env :=
  {| fetch := fun _ => Resolved r;
     createObjectURL := fun _ => "blob:preview" |}.

(** A successful conversion of a video called "Demo". *)
Definition converted : Response :=
  {| ok := true; X_Video_Title := Some "Demo";
     json := Rejected "Unexpected token"; blob := Resolved "ID3" |}.


(** A failure whose body is [{"error": "Video unavailable"}]. *)
Definition unavailable : Response :=
  {| ok := false; X_Video_Title := None;
     json := Resolved (VObject [("error", VString "Video unavailable")]);
     blob := Resolved "" |}.



(** A failure whose body is [null]. *)
Definition failed_with_null : Response :=
  {| ok := false; X_Video_Title := None;
     json := Resolved VNull;
     blob := Resolved "" |}.

(** A failure whose body is [{"error": {"code": 42}}]. *)
Definition failed_with_object : Response :=
  {| ok := false; X_Video_Title := None;
     json := Resolved (VObject [("error", VObject [("code", VNumber false "42")])]);
     blob := Resolved "" |}.

(** The text of two parts of 400 nines each, the second negative: both
    overflow the doubles. *)
Definition overflowing_text : string :=
  Js.repeat_char "9" 400 ++ ":-" ++ Js.repeat_char "9" 400.

(** A preview clip of half a second, just mounted. *)
Definition short_clip : Audio.t :=
  {| Audio.paused := true; Audio.currentTime := Js.of_Z 0;
     Audio.duration := Js.Fin (1 # 2); Audio.src := "blob:preview" |}.

(** A preview that has played up to second 95. *)
Definition playing_at_95 : Audio.t :=
  {| Audio.paused := false; Audio.currentTime := Js.Fin (951 # 10);
     Audio.duration := Js.of_Z 200; Audio.src := "blob:preview" |}.

(** The page after the user typed a URL and an artist. *)
Definition typed : App.World :=
  App.run [App.Change App.f_url "https://youtu.be/abc";
           App.Change App.f_artist "Rick"] App.initialWorld.

(** The page after a conversion, a title and a trim to [30, 90]. *)
Definition trimmed : App.World :=
  App.run [App.Change App.f_url "https://youtu.be/abc";
           App.Convert (answer converted);
           App.Change App.f_title "My song";
           App.Slide (30, 90)] App.initialWorld.

(** The page of [Sample.trimmed] with the preview playing at 95.1 s. *)
Definition overrun : App.World :=
  App.dispatch (App.Media (Some playing_at_95)) trimmed.

End Sample.

(** ** Further notions: what else the page shows, and sessions *)

Module View.

Import App.

(** [status && !error && <SuccessMessage message={status} />]
    (App.jsx, lines 602-604). *)
Definition displayedStatus (s : State) : option string :=
  if negb (status s =? "")%string
     && negb (match App.error s with
              | Some m => negb (m =? "")%string
              | None => false
              end)
  then Some (status s) else None.

(** The range is a window of at least one second inside the clip. *)
Definition valid_window (s : State) : Prop :=
  0 <= fst (rangeValues s) /\
  fst (rangeValues s) < snd (rangeValues s) /\
  snd (rangeValues s) <= audioDuration s.

(** A clip whose duration, if it is a number other than zero, is at
    least one second. *)
Definition lasts_a_second (w : World) : Prop :=
  match audioRef w with
  | Some a =>
      match Audio.duration a with
      | Js.Fin q => (q == 0)%Q \/ (1 <= q)%Q
      | Js.NaN => True
      end
  | None => True
  end.

(** What is taken for granted in a regular session: the slider reports a
    window inside the clip; a clip whose metadata loads lasts at least one
    second; and a time commit is one that a blur of that input can make,
    from some text, with the clip length as it is. *)
Definition regular (e : Event) (w : World) : Prop :=
  match e with
  | Slide values =>
      0 <= fst values /\ fst values < snd values /\
      snd values <= audioDuration (state w)
  | LoadedMetadata | MetadataReady => lasts_a_second w
  | StartTimeChange seconds =>
      exists text,
        TimeInput.onChange (startInput (state w) text) = Js.IInt seconds
  | EndTimeChange seconds =>
      exists text,
        TimeInput.onChange (endInput (state w) text) = Js.IInt seconds
  | _ => True
  end.

(** The worlds a regular session can be in. *)
Inductive session : World -> Prop :=
| session_start : session initialWorld
| session_step e w : session w -> regular e w -> session (dispatch e w).

(** Clicks on Convert or Download. *)
Definition is_click (e : Event) : bool :=
  match e with
  | Convert _ | Download _ => true
  | _ => false
  end.

(** A string without a colon. *)
Fixpoint no_colon (s : string) : bool :=
  match s with
  | EmptyString => true
  | String c r => negb (Ascii.eqb c ":") && no_colon r
  end.

(** No run of [m] ends in an exception. *)
Definition never_throws {A} (m : M A) : Prop :=
  forall w, exists a, fst (m w) = Return a.

(** The trim range and the clip length are untouched. *)
Definition same_range (w w' : World) : Prop :=
  rangeValues (state w') = rangeValues (state w) /\
  audioDuration (state w') = audioDuration (state w).

(** The preview itself is untouched: its URL, the converted flag and the
    title shown with it. *)
Definition same_preview (w w' : World) : Prop :=
  audioUrl (state w') = audioUrl (state w) /\
  isConverted (state w') = isConverted (state w) /\
  videoTitle (state w') = videoTitle (state w).

(** What [handleConvert] does to the element behind [audioRef]. *)
Definition unload (a : Audio.t) : Audio.t :=
  Audio.set_src "" (Audio.set_currentTime (Js.of_Z 0) (Audio.pause a)).

End View.

(** * Properties *)

(** ** The time helpers on sample inputs *)

Example formatTime_75 : formatTime (Js.of_Z 75) = "01:15".
Proof. reflexivity. Qed.

Example formatTime_6000 : formatTime (Js.of_Z 6000) = "100:00".
Proof. reflexivity. Qed.

Example formatTime_frac : formatTime (Js.Fin (151 # 2)) = "01:15".
Proof. reflexivity. Qed.

Example formatTime_6e22 : formatTime (Js.of_Z (6 * 10 ^ 22)) = "1e+21:00".
Proof. vm_compute. reflexivity. Qed.

Example parseTimeInput_ex : parseTimeInput "01:15" = Js.IInt 75.
Proof. reflexivity. Qed.

Example parseTimeInput_lenient : parseTimeInput " 1x:-5" = Js.IInt 55.
Proof. reflexivity. Qed.

Example parseTimeInput_three : parseTimeInput "1:02:03" = Js.IInt 0.
Proof. reflexivity. Qed.

Example parseTimeInput_nbsp :
  parseTimeInput (String (ascii_of_nat 160) "1:05") = Js.IInt 65.
Proof. reflexivity. Qed.

Example parseTimeInput_rounds :
  parseTimeInput "99999999999999999999:00" = Js.IInt (6 * 10 ^ 21).
Proof. vm_compute. reflexivity. Qed.

Example parseTimeInput_overflow :
  parseTimeInput Sample.overflowing_text = Js.INaN.
Proof. vm_compute. reflexivity. Qed.

Example toString_exponent : Js.toString (Some (2 ^ 70)) = "1.1805916207174113e+21".
Proof. vm_compute. reflexivity. Qed.

Example toString_shortest : Js.toString (Some (2 ^ 60)) = "1152921504606847000".
Proof. vm_compute. reflexivity. Qed.


(** ** Decimal digits, [parseInt] and [split] *)

Module JsFacts.

Import Js.

#[local] Arguments digit_char : simpl never.
#[local] Arguments digits : simpl never.

Lemma digit_value_digit_char d :
  0 <= d < 10 -> digit_value (digit_char d) = Some d.
Proof.
  intros H.
  assert (d = 0 \/ d = 1 \/ d = 2 \/ d = 3 \/ d = 4 \/
          d = 5 \/ d = 6 \/ d = 7 \/ d = 8 \/ d = 9) as Hd by lia.
  repeat (destruct Hd as [-> | Hd]; [reflexivity |]).
  subst d. reflexivity.
Qed.

Lemma digit_not_colon c d :
  digit_value c = Some d -> Ascii.eqb c ":" = false.
Proof.
  destruct c as [[] [] [] [] [] [] [] []]; cbv; congruence.
Qed.

Lemma digit_starts_number c d r :
  digit_value c = Some d ->
  parseInt (String c r) = of_run (parse_digits None (String c r)) false.
Proof.
  destruct c as [[] [] [] [] [] [] [] []]; cbv [digit_value nat_of_ascii];
    simpl; try discriminate; intros _; reflexivity.
Qed.

(** Below 2^53 every integer is its own double. *)
Lemma nearest_double_small a : a < two53 -> nearest_double a = Some a.
Proof.
  intros H. unfold nearest_double.
  destruct (Z.ltb_spec a two53) as [_ | ?]; [reflexivity | lia].
Qed.

Lemma to_double_small z : - two53 < z < two53 -> to_double z = IInt z.
Proof.
  intros H. unfold to_double.
  rewrite nearest_double_small by lia.
  f_equal. lia.
Qed.


Lemma toString_small n :
  0 <= n < two53 -> toString (Some n) = digits n.
Proof.
  intros H. unfold toString. rewrite to_double_small by lia.
  destruct (Z.ltb_spec n 0) as [? | _]; [lia |].
  unfold magnitude_text.
  destruct (Z.ltb_spec n two53) as [_ | ?]; [reflexivity | lia].
Qed.

Lemma digits_small n : n < 10 -> digits n = String (digit_char n) EmptyString.
Proof.
  intros H. simp digits. destruct (Z_lt_dec n 10); [reflexivity | lia].
Qed.

Lemma digits_big n :
  10 <= n -> digits n = digits (n / 10) ++ String (digit_char (n mod 10)) EmptyString.
Proof.
  intros H. rewrite digits_equation_1. destruct (Z_lt_dec n 10); [lia | reflexivity].
Qed.

Lemma all_digits_app s t :
  all_digits (s ++ t) = all_digits s && all_digits t.
Proof.
  induction s as [| c s IH]; simpl; [reflexivity |].
  destruct (digit_value c); [exact IH | reflexivity].
Qed.

Lemma digits_all_digits n : 0 <= n -> all_digits (digits n) = true.
Proof.
  revert n. apply (Zlt_0_ind (fun n => all_digits (digits n) = true)).
  intros n IH Hn.
  destruct (Z_lt_dec n 10) as [Hs | Hb].
  - rewrite digits_small by assumption. cbn [all_digits].
    rewrite digit_value_digit_char by lia. reflexivity.
  - rewrite digits_big by lia. rewrite all_digits_app.
    rewrite IH by (split; [apply Z.div_pos | apply Z.div_lt]; lia).
    cbn [all_digits andb]. rewrite digit_value_digit_char; [reflexivity |].
    apply Z.mod_pos_bound; lia.
Qed.

Lemma digits_nonempty n : digits n <> EmptyString.
Proof.
  destruct (Z_lt_dec n 10) as [Hs | Hb].
  - rewrite digits_small by assumption. discriminate.
  - rewrite digits_big by lia. destruct (digits (n / 10)); discriminate.
Qed.

Lemma parse_digits_app s t acc :
  all_digits s = true ->
  parse_digits acc (s ++ t) = parse_digits (parse_digits acc s) t.
Proof.
  revert acc. induction s as [| c s IH]; intros acc H; cbn in *.
  - reflexivity.
  - destruct (digit_value c); [apply IH; assumption | discriminate].
Qed.

Lemma parse_digits_digits n acc :
  0 <= n -> fresh acc -> parse_digits acc (digits n) = Some n.
Proof.
  intros Hn. revert n Hn acc.
  apply (Zlt_0_ind (fun n => forall acc, fresh acc -> parse_digits acc (digits n) = Some n)).
  intros n IH Hn acc Hacc.
  destruct (Z_lt_dec n 10) as [Hs | Hb].
  - rewrite digits_small by assumption. cbn [parse_digits].
    rewrite digit_value_digit_char by lia.
    destruct Hacc as [-> | ->]; f_equal; lia.
  - assert (0 <= n / 10 < n) as Hq
        by (split; [apply Z.div_pos | apply Z.div_lt]; lia).
    rewrite digits_big by lia.
    rewrite parse_digits_app by (apply digits_all_digits; lia).
    rewrite (IH (n / 10) Hq acc Hacc). cbn [parse_digits].
    rewrite digit_value_digit_char by (apply Z.mod_pos_bound; lia).
    f_equal. pose proof (Z.div_mod n 10). lia.
Qed.

Lemma parse_digits_padded k n acc :
  0 <= n -> fresh acc ->
  parse_digits acc (repeat_char "0" k ++ digits n) = Some n.
Proof.
  intros Hn. revert acc.
  induction k as [| k IH]; intros acc Hacc; cbn [repeat_char append parse_digits].
  - apply parse_digits_digits; assumption.
  - change (digit_value "0") with (Some 0). cbv iota.
    apply IH. right. destruct Hacc as [-> | ->]; reflexivity.
Qed.

Lemma all_digits_padded k n :
  0 <= n -> all_digits (repeat_char "0" k ++ digits n) = true.
Proof.
  intros Hn. induction k as [| k IH]; cbn [repeat_char append all_digits].
  - apply digits_all_digits; assumption.
  - change (digit_value "0") with (Some 0). exact IH.
Qed.

Lemma parseInt_all_digits s :
  all_digits s = true -> s <> EmptyString ->
  parseInt s = of_run (parse_digits None s) false.
Proof.
  destruct s as [| c r]; [congruence |]. cbn [all_digits]. intros H _.
  destruct (digit_value c) as [d |] eqn:Hd; [| discriminate].
  apply (digit_starts_number c d r Hd).
Qed.

(** [parseInt] undoes [toString().padStart(2, '0')] on whole numbers. *)
Lemma parseInt_padStart n :
  0 <= n < two53 ->
  parseInt (padStart 2 "0" (toString (Some n))) = IInt n.
Proof.
  intros Hn. rewrite toString_small by assumption. unfold padStart.
  rewrite parseInt_all_digits.
  - rewrite parse_digits_padded by (lia || (left; reflexivity)).
    cbn [of_run]. apply to_double_small. lia.
  - apply all_digits_padded; lia.
  - destruct (2 - String.length (digits n))%nat; cbn [repeat_char append];
      [| discriminate].
    apply digits_nonempty.
Qed.

Lemma split_digits s :
  all_digits s = true -> split ":" s = [s].
Proof.
  induction s as [| c s IH]; simpl; [reflexivity |].
  destruct (digit_value c) as [d |] eqn:Hd; [| discriminate].
  intros H. rewrite (digit_not_colon c d Hd), (IH H). reflexivity.
Qed.

Lemma split_digits_colon s t :
  all_digits s = true -> split ":" (s ++ String ":" t) = s :: split ":" t.
Proof.
  induction s as [| c s IH]; simpl; [reflexivity |].
  destruct (digit_value c) as [d |] eqn:Hd; [| discriminate].
  intros H. rewrite (digit_not_colon c d Hd), (IH H). reflexivity.
Qed.

End JsFacts.


(** ** [formatTime], [parseTimeInput] and the [TimeInput] blur *)

Module TimeFacts.

Import Js JsFacts.

Lemma Qfloor_div60 n : Qfloor (inject_Z n / inject_Z 60) = n / 60.
Proof.
  unfold Qdiv, Qinv, Qmult, inject_Z, Qfloor. cbn.
  rewrite Z.mul_1_r. reflexivity.
Qed.

Lemma Qtrunc_div60 n : 0 <= n -> Qtrunc (inject_Z n / inject_Z 60) = n / 60.
Proof.
  intros Hn. unfold Qtrunc.
  assert (Qle_bool 0 (inject_Z n / inject_Z 60) = true) as ->.
  { apply Qle_bool_iff. unfold Qle, Qdiv, Qinv, Qmult, inject_Z. cbn. lia. }
  apply Qfloor_div60.
Qed.

Lemma Qfloor_rem60 n :
  0 <= n ->
  Qfloor (inject_Z n - inject_Z 60 * inject_Z (Qtrunc (inject_Z n / inject_Z 60)))
  = n mod 60.
Proof.
  intros Hn. rewrite Qtrunc_div60 by assumption.
  assert (inject_Z n - inject_Z 60 * inject_Z (n / 60)
          == inject_Z (n - 60 * (n / 60)))%Q as E.
  { unfold Z.sub, Qminus.
    rewrite inject_Z_plus, inject_Z_opp, inject_Z_mult. reflexivity. }
  rewrite E, Qfloor_Z. rewrite Z.mod_eq by lia. reflexivity.
Qed.

(** [formatTime] on whole seconds. *)
Lemma formatTime_whole n :
  0 <= n ->
  formatTime (of_Z n) =
  padStart 2 "0" (toString (Some (n / 60))) ++ ":" ++
  padStart 2 "0" (toString (Some (n mod 60))).
Proof.
  intros Hn. unfold formatTime, of_Z.
  cbn [isNaN ltb orb div rem Math_floor].
  assert (Qle_bool (inject_Z 0) (inject_Z n) = true) as ->.
  { apply Qle_bool_iff. rewrite <- Zle_Qle. assumption. }
  change (Qeq_bool (inject_Z 60) 0) with false. cbv iota. cbn [negb].
  cbn [Math_floor].
  rewrite Qfloor_div60, Qfloor_rem60 by assumption. reflexivity.
Qed.

Lemma padded_all_digits n :
  0 <= n < two53 -> all_digits (padStart 2 "0" (toString (Some n))) = true.
Proof.
  intros Hn. rewrite toString_small by assumption. unfold padStart.
  apply all_digits_padded; lia.
Qed.

Lemma parseTimeInput_formatTime n :
  0 <= n < two53 -> parseTimeInput (formatTime (of_Z n)) = IInt n.
Proof.
  intros Hn. rewrite formatTime_whole by lia.
  assert (0 <= n / 60) as Hm by (apply Z.div_pos; lia).
  assert (n / 60 <= n) as Hle by (apply Z.div_le_upper_bound; lia).
  assert (0 <= n mod 60 < 60) as Hs by (apply Z.mod_pos_bound; lia).
  assert (60 < two53) as H60 by reflexivity.
  pose proof (Z.div_mod n 60) as Hdm.
  unfold parseTimeInput. cbn [append].
  rewrite split_digits_colon by (apply padded_all_digits; lia).
  rewrite split_digits by (apply padded_all_digits; lia).
  rewrite !parseInt_padStart by lia.
  cbn [isNaN_integral orb mul].
  rewrite to_double_small by lia. cbn [add].
  rewrite to_double_small by lia. f_equal. lia.
Qed.

Lemma formatTime_negative q : (q < 0)%Q -> formatTime (Fin q) = "00:00".
Proof.
  intros Hq. unfold formatTime, of_Z. cbn [isNaN ltb orb].
  destruct (Qle_bool (inject_Z 0) q) eqn:E; [| reflexivity].
  apply Qle_bool_iff in E. exfalso.
  apply (Qlt_irrefl 0). eapply Qle_lt_trans; [exact E | exact Hq].
Qed.

(** C8, as the code has it.  [parseTimeInput] undoes [formatTime] on
    every whole number of seconds [0 <= n < 2^53], and [formatTime]
    answers "00:00" on [NaN] and on every negative number. *)
Theorem formatTime_parseTimeInput_round_trip :
  (forall n : Z,
     0 <= n < Js.two53 ->
     parseTimeInput (formatTime (Js.of_Z n)) = Js.IInt n) /\
  formatTime Js.NaN = "00:00" /\
  (forall q : Q, (q < 0)%Q -> formatTime (Js.Fin q) = "00:00").
Proof.
  split; [| split].
  - exact parseTimeInput_formatTime.
  - reflexivity.
  - exact formatTime_negative.
Qed.

Lemma formatTime_round_trip_witness :
  parseTimeInput (formatTime (Js.of_Z 3725)) = Js.IInt 3725 /\
  formatTime (Js.Fin (-3 # 2)) = "00:00".
Proof.
  split.
  - apply (proj1 formatTime_parseTimeInput_round_trip 3725).
    split; [lia | reflexivity].
  - apply (proj2 (proj2 formatTime_parseTimeInput_round_trip) (-3 # 2)).
    reflexivity.
Defined.

(** C8 as stated fails on large whole numbers.  6e22 is a double and so is
    its sixtieth, 1e21, which [toString] prints as "1e+21"; [parseInt]
    stops at the "e", and the round trip gives 60. *)
Lemma formatTime_round_trip_breaks :
  0 <= 6 * 10 ^ 22 /\
  Js.to_double (6 * 10 ^ 22) = Js.IInt (6 * 10 ^ 22) /\
  Js.to_double (10 ^ 21) = Js.IInt (10 ^ 21) /\
  formatTime (Js.of_Z (6 * 10 ^ 22)) = "1e+21:00" /\
  parseTimeInput (formatTime (Js.of_Z (6 * 10 ^ 22))) = Js.IInt 60.
Proof. vm_compute. repeat split; congruence. Qed.



Lemma clamp_number s max :
  s <> INaN -> 0 <= max ->
  exists z, Math_min (Math_max (IInt 0) s) (IInt max) = IInt z /\ 0 <= z <= max.
Proof.
  intros Hs Hmax. destruct s as [| [] | a]; [congruence | | |]; cbn.
  - exists 0. split; [f_equal |]; lia.
  - exists max. split; [reflexivity | lia].
  - exists (Z.min (Z.max 0 a) max). split; [reflexivity | lia].
Qed.





End TimeFacts.

(** ** Handlers as state transformers: what every handler leaves alone *)

Module Frame.

Import App.

Section Preorder.

Variable R : World -> World -> Prop.
Hypothesis R_refl : forall w, R w w.
Hypothesis R_trans : forall a b c, R a b -> R b c -> R a c.

Lemma keeps_ret {A} (a : A) : keeps R (ret a).
Proof. intros w. apply R_refl. Qed.

Lemma keeps_throw {A} (m : string) : keeps R (@throw A m).
Proof. intros w. apply R_refl. Qed.

Lemma keeps_await {A} (p : Net.Settled A) : keeps R (await p).
Proof. destruct p; [apply keeps_ret | apply keeps_throw]. Qed.

Lemma keeps_bind {A B} (m : M A) (k : A -> M B) :
  keeps R m -> (forall a, keeps R (k a)) -> keeps R (bind m k).
Proof.
  intros Hm Hk w. unfold bind. specialize (Hm w).
  destruct (m w) as [[a | msg] w']; cbn in *.
  - eapply R_trans; [exact Hm | apply Hk].
  - exact Hm.
Qed.

Lemma keeps_try_catch {A} (m : M A) (h : string -> M A) :
  keeps R m -> (forall msg, keeps R (h msg)) -> keeps R (try_catch m h).
Proof.
  intros Hm Hh w. unfold try_catch. specialize (Hm w).
  destruct (m w) as [[a | msg] w']; cbn in *.
  - exact Hm.
  - eapply R_trans; [exact Hm | apply Hh].
Qed.

End Preorder.

(** Break a handler body down to its primitive steps. *)
Ltac steps Rrefl Rtrans prim :=
  repeat lazymatch goal with
    | |- keeps _ (ret _) => apply (keeps_ret _ Rrefl)
    | |- keeps _ (throw _) => apply (keeps_throw _ Rrefl)
    | |- keeps _ (await _) => apply (keeps_await _ Rrefl)
    | |- keeps _ (bind _ _) => apply (keeps_bind _ Rtrans); [| intros ?]
    | |- keeps _ (try_catch _ _) => apply (keeps_try_catch _ Rtrans); [| intros ?]
    | |- keeps _ (if ?b then _ else _) => destruct b
    | |- keeps _ (match ?x with _ => _ end) => destruct x
    | |- keeps _ _ => prim
    end.

(** *** The [start] and [end] cells of the form *)





End Frame.

(** ** What the handlers send *)

Module Requests.

Import Net App.

Lemma skipn_app_exact {A} (l x : list A) : skipn (List.length l) (l ++ x)%list = x.
Proof. induction l as [| a l IH]; [reflexivity | exact IH]. Qed.

Lemma sent_of_log (h : M unit) w x :
  requests (snd (h w)) = (requests w ++ x)%list -> sent h w = x.
Proof. unfold sent. intros ->. apply skipn_app_exact. Qed.

#[local] Arguments get_error : simpl never.
#[local] Arguments error_message : simpl never.

(** The three awaits of a refused response, one after the other. *)
Ltac refused :=
  lazymatch goal with
  | |- context [json ?resp] =>
      let d := fresh "errorData" in
      let e := fresh "member" in
      destruct (json resp) as [d |]; cbn; [| reflexivity];
      destruct (get_error d) as [e |]; cbn; [| reflexivity];
      destruct (error_message e _); reflexivity
  end.

Lemma matches_youtube_nonempty u :
  matches_youtube u = true -> (u =? "")%string = false.
Proof. destruct u; [discriminate | reflexivity]. Qed.

(** The log after [handleConvert]: nothing more when the URL check fails,
    one preview request otherwise. *)
Lemma handleConvert_log env c w :
  requests (snd (handleConvert env c w)) =
  (requests w ++
   if (url (formData c) =? "")%string || negb (matches_youtube (url (formData c)))
   then [] else [post (convertBody c)])%list.
Proof.
  unfold handleConvert.
  destruct ((url (formData c) =? "")%string || negb (matches_youtube (url (formData c)))).
  - cbn. symmetry. apply app_nil_r.
  - cbv [bind try_catch do_fetch await]. cbn.
    destruct (fetch env _) as [resp | m]; cbn; [| reflexivity].
    destruct (ok resp); cbn.
    + destruct (blob resp); reflexivity.
    + refused.
Qed.

(** The log after [handleDownload]: nothing more without a preview, one
    download request otherwise. *)
Lemma handleDownload_log env c w :
  requests (snd (handleDownload env c w)) =
  (requests w ++
   if (audioUrl c =? "")%string then [] else [post (downloadBody c)])%list.
Proof.
  unfold handleDownload.
  destruct (audioUrl c =? "")%string.
  - cbn. symmetry. apply app_nil_r.
  - cbv [bind try_catch do_fetch await]. cbn.
    destruct (fetch env _) as [resp | m]; cbn; [| reflexivity].
    destruct (ok resp); cbn.
    + destruct (blob resp); reflexivity.
    + refused.
Qed.

(** No other handler touches the network. *)
Lemma same_log_refl w : same_log w w.
Proof. reflexivity. Qed.

Lemma same_log_trans a b c : same_log a b -> same_log b c -> same_log a c.
Proof. unfold same_log. congruence. Qed.

Ltac log_prim := solve [intros ?; reflexivity].

Lemma local_handler_log e c :
  match e with Convert _ | Download _ => True | _ => keeps same_log (handler e c) end.
Proof.
  destruct e; try exact I;
    cbv [handler handleChange togglePlay handleStartTimeChange
         handleEndTimeChange updateTime onTimeUpdate onEnded
         onLoadedMetadata_then_handleMetadata handleMetadata seek];
    Frame.steps same_log_refl same_log_trans log_prim.
Qed.

(** What one event sends, by cases on the event. *)
Lemma sent_by_event e w :
  sent (handler e (state w)) w =
  match e with
  | Convert _ =>
      if (url (formData (state w)) =? "")%string
         || negb (matches_youtube (url (formData (state w))))
      then [] else [post (convertBody (state w))]
  | Download _ =>
      if (audioUrl (state w) =? "")%string then []
      else [post (downloadBody (state w))]
  | _ => []
  end.
Proof.
  pose proof (local_handler_log e (state w)) as H.
  destruct e;
    try (apply sent_of_log; rewrite app_nil_r; exact (H w)).
  - apply sent_of_log, handleConvert_log.
  - apply sent_of_log, handleDownload_log.
Qed.

Lemma run_snoc es e w : run (es ++ [e])%list w = dispatch e (run es w).
Proof. unfold run. rewrite fold_left_app. reflexivity. Qed.


End Requests.

(** ** The conversion requests *)

Module ConvertFacts.

Import Net App Requests.

(** Every request the page ever sends is a POST to the literal
    [fetch_url]. *)
Lemma every_request_posts_to_fetch_url es :
  Forall (fun r => method r = "POST" /\ Net.url r = fetch_url)
         (requests (run es initialWorld)).
Proof.
  induction es as [| e es IH] using rev_ind; [constructor |].
  rewrite run_snoc. unfold dispatch.
  set (w := run es initialWorld) in *.
  pose proof (sent_by_event e w) as Hsent. unfold sent in Hsent.
  assert (exists x, requests (snd (handler e (state w) w)) = (requests w ++ x)%list)
    as [x Hx].
  { pose proof (local_handler_log e (state w)) as Hloc.
    destruct e; try (exists []; rewrite app_nil_r; exact (Hloc w)).
    - eexists. apply handleConvert_log.
    - eexists. apply handleDownload_log. }
  rewrite Hx in Hsent |- *. rewrite skipn_app_exact in Hsent. subst x.
  apply Forall_app. split; [exact IH |].
  destruct e; try constructor.
  - destruct (_ || _); repeat constructor.
  - destruct (_ =? _)%string; repeat constructor.
Qed.

(** C1, on the code.  Both the preview and the download request are POSTs,
    and both go to the same URL, but that URL is the double-quoted text
    ["${API_BASE}/api/convert"] with the placeholder left in it, not the
    [/api/convert] endpoint of the API base: shown for a session that
    converts and downloads, with the API base [http://localhost:5000]. *)
Theorem fetch_url_keeps_placeholder :
  map (fun r => (method r, Net.url r))
      (requests (run [Change f_url "https://youtu.be/abc";
                      Convert (Sample.answer Sample.converted);
                      Download (Sample.answer Sample.converted)] initialWorld))
  = [("POST", "${API_BASE}/api/convert"); ("POST", "${API_BASE}/api/convert")] /\
  (forall es,
      Forall (fun r => method r = "POST" /\ Net.url r = "${API_BASE}/api/convert")
             (requests (run es initialWorld))) /\
  fetch_url <> Spec.api_convert_endpoint "http://localhost:5000".
Proof.
  split; [reflexivity | split].
  - exact every_request_posts_to_fetch_url.
  - discriminate.
Qed.

(** The state a rejected URL leaves behind. *)
Lemma handleConvert_rejected env c w :
  matches_youtube (url (formData c)) = false ->
  state (snd (handleConvert env c w)) =
  {| formData := formData (state w);
     status := "";
     isConverted := false;
     isPlaying := false;
     App.error := Some "Please enter a valid YouTube URL";
     rangeValues := (0, 1000);
     audioDuration := 1000;
     audioUrl := "";
     currentTime := Js.of_Z 0;
     videoTitle := "" |}.
Proof.
  intros H. unfold handleConvert. rewrite H, orb_true_r. reflexivity.
Qed.

(** C2, as the code has it.  A URL that contains neither [youtube.com] nor
    [youtu.be] gets the error "Please enter a valid YouTube URL" and no
    request leaves the page; a URL that contains one of them is sent as
    one preview request. *)
Theorem handleConvert_checks_url_shape (env : Env) (c : State) (w : World) :
  let u := url (formData c) in
  let w' := snd (handleConvert env c w) in
  (matches_youtube u = false ->
     App.error (state w') = Some "Please enter a valid YouTube URL" /\
     displayedError (state w') = Some "Please enter a valid YouTube URL" /\
     status (state w') = "" /\
     isConverted (state w') = false /\
     requests w' = requests w /\
     sent (handleConvert env c) w = []) /\
  (matches_youtube u = true ->
     sent (handleConvert env c) w = [post (convertBody c)]).
Proof.
  cbv zeta. split; intros H.
  - pose proof (handleConvert_log env c w) as Hl.
    rewrite H, orb_true_r, app_nil_r in Hl.
    rewrite (handleConvert_rejected env c w H).
    repeat split; try reflexivity; try assumption.
    apply sent_of_log. rewrite Hl. symmetry. apply app_nil_r.
  - apply sent_of_log. rewrite handleConvert_log, H.
    rewrite (matches_youtube_nonempty _ H). reflexivity.
Qed.

Lemma handleConvert_url_shape_witness :
  (let w' := snd (handleConvert (Sample.answer Sample.converted)
                    (state (dispatch (Change f_url "not-a-url") initialWorld))
                    (dispatch (Change f_url "not-a-url") initialWorld)) in
   App.error (state w') = Some "Please enter a valid YouTube URL" /\
   requests w' = []) /\
  List.length
    (sent (handleConvert (Sample.answer Sample.converted)
             (state (dispatch (Change f_url "https://youtu.be/abc") initialWorld)))
          (dispatch (Change f_url "https://youtu.be/abc") initialWorld)) = 1%nat.
Proof.
  split.
  - pose proof
      (proj1 (handleConvert_checks_url_shape
                (Sample.answer Sample.converted)
                (state (dispatch (Change f_url "not-a-url") initialWorld))
                (dispatch (Change f_url "not-a-url") initialWorld))
             eq_refl) as H.
    cbv zeta in *. split; [apply H | apply H].
  - rewrite (proj2 (handleConvert_checks_url_shape
                      (Sample.answer Sample.converted)
                      (state (dispatch (Change f_url "https://youtu.be/abc") initialWorld))
                      (dispatch (Change f_url "https://youtu.be/abc") initialWorld))
                   eq_refl).
    reflexivity.
Defined.

(** C2 as stated fails: the check is a substring test, so a URL on another
    host that merely mentions [youtube.com] passes it and is sent. *)
Lemma substring_check_lets_other_hosts_through :
  Spec.genuine_video_hosting_url "https://example.com/?ref=youtube.com" = false /\
  sent (handleConvert (Sample.answer Sample.converted)
          (state (dispatch (Change f_url "https://example.com/?ref=youtube.com")
                           initialWorld)))
       (dispatch (Change f_url "https://example.com/?ref=youtube.com") initialWorld)
  = [post [("url", Str "https://example.com/?ref=youtube.com");
           ("start", Num 0)]].
Proof. split; reflexivity. Qed.

End ConvertFacts.

(** ** The request bodies *)

Module BodyFacts.

Import Net App Requests.

Ltac by_computation :=
  cbn; unfold Spec.carries; cbn;
  repeat split; intros; try reflexivity; try discriminate; try congruence.

(** The metadata members of the two bodies, field by field. *)
Lemma bodies_carry_metadata (c : State) (b : list (string * Json)) :
  b = JSON_stringify (convertBody c) \/ b = JSON_stringify (downloadBody c) ->
  Spec.carries b "title" (title (formData c)) /\
  Spec.carries b "artist" (artist (formData c)) /\
  Spec.carries b "album" (album (formData c)) /\
  Spec.carries b "genre" (genre (formData c)).
Proof.
  unfold convertBody, downloadBody.
  destruct (formData c) as [u t a al g st en]. cbn [title artist album genre url start end_].
  intros [-> | ->].
  - unfold num_or. destruct (st =? 0), (en =? 0), t, a, al, g; by_computation.
  - destruct t, a, al, g; by_computation.
Qed.

(** C5. In every request an event makes the page send, each of [title],
    [artist], [album] and [genre] is a member of the JSON body exactly when
    the form field is not empty, and then with the field's value; an empty
    field is left out, never sent as an empty string. *)
Theorem metadata_sent_iff_entered (e : Event) (w : World) (r : Request) :
  In r (sent (handler e (state w)) w) ->
  let f := formData (state w) in
  Spec.carries (body r) "title" (title f) /\
  Spec.carries (body r) "artist" (artist f) /\
  Spec.carries (body r) "album" (album f) /\
  Spec.carries (body r) "genre" (genre f) /\
  (forall key, In key ["title"; "artist"; "album"; "genre"] ->
     member key (body r) <> Some (JString "")).
Proof.
  rewrite sent_by_event. intros Hin f.
  assert (r = post (convertBody (state w)) \/ r = post (downloadBody (state w)))
    as Hr.
  { destruct e; try contradiction.
    - destruct (_ || _); [contradiction |]. destruct Hin as [<- | []]. now left.
    - destruct (_ =? _)%string; [contradiction |]. destruct Hin as [<- | []].
      now right. }
  clear Hin. subst f.
  assert (body r = JSON_stringify (convertBody (state w)) \/
          body r = JSON_stringify (downloadBody (state w))) as Hb
    by (destruct Hr as [-> | ->]; [left | right]; reflexivity).
  destruct (bodies_carry_metadata (state w) (body r) Hb) as (Ht & Ha & Hal & Hg).
  repeat (split; [assumption |]).
  intros key Hk Hempty.
  assert (forall v, Spec.carries (body r) key v -> False) as Hno.
  { intros v [Hnone Hsome]. destruct v as [| x v].
    - rewrite (proj2 Hnone eq_refl) in Hempty. discriminate.
    - rewrite Hsome in Hempty by discriminate. discriminate. }
  cbn in Hk.
  repeat (destruct Hk as [<- | Hk]; [eauto |]). destruct Hk.
Qed.

Lemma metadata_sent_witness :
  In (post (convertBody (state Sample.typed)))
     (sent (handler (Convert (Sample.answer Sample.converted))
              (state Sample.typed)) Sample.typed) /\
  Spec.carries (body (post (convertBody (state Sample.typed)))) "artist" "Rick" /\
  Spec.carries (body (post (convertBody (state Sample.typed)))) "title" "".
Proof.
  assert (In (post (convertBody (state Sample.typed)))
             (sent (handler (Convert (Sample.answer Sample.converted))
                      (state Sample.typed)) Sample.typed)) as Hin
    by (vm_compute; left; reflexivity).
  split; [exact Hin |].
  pose proof (metadata_sent_iff_entered _ _ _ Hin) as H. cbv zeta in H.
  split; [apply H | apply H].
Defined.



Example download_body_of_sample_session :
  body (post (downloadBody (state Sample.trimmed))) =
  [("url", JString "https://youtu.be/abc"); ("title", JString "My song");
   ("start", JNumber 30); ("end", JNumber 90)].
Proof. vm_compute. reflexivity. Qed.

End BodyFacts.

(** ** What the page makes of the response *)

Module ResponseFacts.

Import Net App Requests.

#[local] Arguments get_error : simpl never.
#[local] Arguments error_message : simpl never.




(** Where the title field of the form does go: the name of the file a
    successful download saves. *)
Lemma handleDownload_filename env c w resp b :
  audioUrl c <> EmptyString ->
  fetch env (post (downloadBody c)) = Resolved resp ->
  ok resp = true ->
  blob resp = Resolved b ->
  clicked (snd (handleDownload env c w)) =
  (clicked w ++
   [{| href := createObjectURL env b;
       download := Js.or_else (title (formData c)) "download" ++ ".mp3" |}])%list.
Proof.
  intros Hu Hf Hok Hb. unfold handleDownload.
  destruct (audioUrl c) as [| x u]; [congruence |]. cbn [String.eqb].
  replace (String.eqb (String x u) EmptyString) with false by reflexivity.
  remember (post (downloadBody c)) as req.
  cbv [bind try_catch do_fetch await]. cbn.
  rewrite Hf. cbn. rewrite Hok. cbn. rewrite Hb. reflexivity.
Qed.







Example refused_with_object_member :
  displayedError
    (state (snd (handleConvert (Sample.answer Sample.failed_with_object)
                   (state Sample.typed) Sample.typed)))
  = Some "[object Object]".
Proof. vm_compute. reflexivity. Qed.

End ResponseFacts.

(** ** The trim inputs and the preview player *)

Module PlayerFacts.

Import App.

(** C4. With a range that satisfies
    [0 <= rangeValues[0] < rangeValues[1] <= audioDuration], a start time
    committed in [0, audioDuration - 1] and an end time committed in
    [0, audioDuration] both leave a range with [start <= end - 1] and
    [end <= audioDuration]: the window is at least one second long. *)
Theorem manual_edits_keep_one_second (w : World) (seconds : Z) :
  let c := state w in
  0 <= fst (rangeValues c) ->
  fst (rangeValues c) < snd (rangeValues c) ->
  snd (rangeValues c) <= audioDuration c ->
  (0 <= seconds <= audioDuration c - 1 ->
   let s' := state (snd (handleStartTimeChange c seconds w)) in
   fst (rangeValues s') <= snd (rangeValues s') - 1 /\
   snd (rangeValues s') <= audioDuration s') /\
  (0 <= seconds <= audioDuration c ->
   let s' := state (snd (handleEndTimeChange c seconds w)) in
   fst (rangeValues s') <= snd (rangeValues s') - 1 /\
   snd (rangeValues s') <= audioDuration s').
Proof.
  intros c H0 Hlt Hle. split; intros Hs s'; subst s' c.
  - unfold handleStartTimeChange. cbv [bind audioRef_current].
    cbn [setRangeValues modify fst snd state audioRef].
    destruct (audioRef w); [destruct (isPlaying (state w)) |]; cbn; lia.
  - unfold handleEndTimeChange. cbn. lia.
Qed.

Lemma manual_edits_witness :
  (let s' := state (snd (handleStartTimeChange (state Sample.trimmed) 120
                           Sample.trimmed)) in
   fst (rangeValues s') <= snd (rangeValues s') - 1 /\
   snd (rangeValues s') <= audioDuration s') /\
  (let s' := state (snd (handleEndTimeChange (state Sample.trimmed) 10
                           Sample.trimmed)) in
   fst (rangeValues s') <= snd (rangeValues s') - 1 /\
   snd (rangeValues s') <= audioDuration s').
Proof.
  assert (0 <= fst (rangeValues (state Sample.trimmed))) as H0
    by (vm_compute; discriminate).
  assert (fst (rangeValues (state Sample.trimmed))
          < snd (rangeValues (state Sample.trimmed))) as H1
    by (vm_compute; reflexivity).
  assert (snd (rangeValues (state Sample.trimmed))
          <= audioDuration (state Sample.trimmed)) as H2
    by (vm_compute; discriminate).
  split.
  - apply (proj1 (manual_edits_keep_one_second Sample.trimmed 120 H0 H1 H2)).
    vm_compute. split; discriminate.
  - apply (proj2 (manual_edits_keep_one_second Sample.trimmed 10 H0 H1 H2)).
    vm_compute. split; discriminate.
Defined.

(** The same through the page's events: a commit in range, of either
    input, leaves a window of at least one second. *)
Lemma committed_edits_keep_one_second (w : World) (seconds : Z) :
  0 <= fst (rangeValues (state w)) ->
  fst (rangeValues (state w)) < snd (rangeValues (state w)) ->
  snd (rangeValues (state w)) <= audioDuration (state w) ->
  forall e, e = StartTimeChange seconds \/ e = EndTimeChange seconds ->
  let s' := state (dispatch e w) in
  fst (rangeValues s') <= snd (rangeValues s') - 1 /\
  snd (rangeValues s') <= audioDuration s'.
Proof.
  intros H0 Hlt Hle e [-> | ->] s'; subst s'; unfold dispatch, handler.
  - unfold handleStartTimeChange. cbv [bind audioRef_current].
    cbn [setRangeValues modify fst snd state audioRef].
    destruct (audioRef w); [destruct (isPlaying (state w)) |]; cbn; lia.
  - unfold handleEndTimeChange. cbn. lia.
Qed.

(** "99:99" typed into the start input of the trimmed page, whose clip
    length is still 1000, commits 999, and the range becomes [89, 90]. *)
Example start_edit_past_the_end :
  TimeInput.onChange (startInput (state Sample.trimmed) "99:99") = Js.IInt 999 /\
  rangeValues (state (dispatch (StartTimeChange 999) Sample.trimmed)) = (89, 90).
Proof. vm_compute. split; reflexivity. Qed.

Example end_edit_before_the_start :
  TimeInput.onChange (endInput (state Sample.trimmed) "00:05") = Js.IInt 5 /\
  rangeValues (state (dispatch (EndTimeChange 5) Sample.trimmed)) = (30, 31).
Proof. vm_compute. split; reflexivity. Qed.

(** A clip shorter than a second gets [audioDuration = 0], the start input
    then has [max = -1], and a blur commits -1. *)
Example short_clip_start_edit :
  TimeInput.onChange
    (startInput
       (state (run [Media (Some Sample.short_clip); LoadedMetadata] Sample.trimmed))
       "00:05") = Js.IInt (-1) /\
  rangeValues
    (state (run [Media (Some Sample.short_clip); LoadedMetadata;
                 StartTimeChange (-1)] Sample.trimmed))
  = (-1, 0).
Proof. vm_compute. split; reflexivity. Qed.

Lemma geb_of_le q z : (inject_Z z <= q)%Q -> Js.geb (Js.Fin q) (Js.of_Z z) = true.
Proof. intros H. cbn. apply Qle_bool_iff. exact H. Qed.

(** C10. When the audio element's position has reached or passed
    [rangeValues[1]], the polling handler [updateTime] and the
    [onTimeUpdate] handler both pause the element, set [isPlaying] to false
    and move the position back to [rangeValues[0]]. *)
Theorem playback_stops_at_end_of_range
    (c : State) (w : World) (a : Audio.t) (position : Q) :
  audioRef w = Some a ->
  Audio.currentTime a = Js.Fin position ->
  (inject_Z (snd (rangeValues c)) <= position)%Q ->
  (let w' := snd (updateTime c w) in
   option_map Audio.paused (audioRef w') = Some true /\
   option_map Audio.currentTime (audioRef w')
   = Some (Js.of_Z (fst (rangeValues c))) /\
   isPlaying (state w') = false) /\
  (let w' := snd (onTimeUpdate c w) in
   option_map Audio.paused (audioRef w') = Some true /\
   option_map Audio.currentTime (audioRef w')
   = Some (Js.of_Z (fst (rangeValues c))) /\
   isPlaying (state w') = false).
Proof.
  intros Ha Hpos Hle.
  pose proof (geb_of_le _ _ Hle) as Hge. rewrite <- Hpos in Hge.
  split; cbv zeta.
  - unfold updateTime. cbv [bind audioRef_current]. cbn [fst snd].
    rewrite Ha. cbn [setCurrentTime modify fst snd]. rewrite Hge.
    cbn. rewrite Ha. repeat split; reflexivity.
  - unfold onTimeUpdate. cbv [bind audioRef_current]. cbn [fst snd].
    rewrite Ha, Hge. cbn. rewrite Ha. repeat split; reflexivity.
Qed.

Lemma playback_stops_witness :
  option_map Audio.paused (audioRef (snd (updateTime (state Sample.overrun) Sample.overrun)))
  = Some true /\
  option_map Audio.currentTime
    (audioRef (snd (onTimeUpdate (state Sample.overrun) Sample.overrun)))
  = Some (Js.of_Z 30).
Proof.
  assert (inject_Z (snd (rangeValues (state Sample.overrun))) <= 951 # 10)%Q as Hle
    by (vm_compute; discriminate).
  pose proof (playback_stops_at_end_of_range (state Sample.overrun) Sample.overrun
                Sample.playing_at_95 (951 # 10) eq_refl eq_refl Hle) as H.
  cbv zeta in H. destruct H as [(Hp & _ & _) (_ & Ht & _)].
  split; [exact Hp | exact Ht].
Defined.

End PlayerFacts.


(** * Further properties of the code *)

(** ** More on the time helpers *)

Module TimeExtras.

Import Js JsFacts TimeFacts.

Lemma Qfloor_plus_Z q z : Qfloor (q + inject_Z z) = Qfloor q + z.
Proof.
  destruct q as [a b]. unfold Qplus, inject_Z, Qfloor. cbn [Qnum Qden].
  rewrite Pos.mul_1_r, Z.mul_1_r. apply Z.div_add. discriminate.
Qed.

Lemma Qfloor_nonneg q : (0 <= q)%Q -> 0 <= Qfloor q.
Proof.
  intros H. change 0 with (Qfloor 0). apply Qfloor_resp_le. exact H.
Qed.

Lemma Qfloor_div60_any q : Qfloor (q / inject_Z 60) = Qfloor q / 60.
Proof.
  destruct q as [a b]. unfold Qdiv, Qinv, Qmult, inject_Z, Qfloor.
  cbn [Qnum Qden Z.to_pos]. rewrite Z.mul_1_r, Pos2Z.inj_mul.
  symmetry. apply Z.div_div; [discriminate | lia].
Qed.

Lemma Qtrunc_div60_any q : (0 <= q)%Q -> Qtrunc (q / inject_Z 60) = Qfloor q / 60.
Proof.
  intros Hq. unfold Qtrunc.
  assert (Qle_bool 0 (q / inject_Z 60) = true) as ->.
  { apply Qle_bool_iff. destruct q as [a b].
    unfold Qle, Qdiv, Qinv, Qmult, inject_Z in *. cbn in *. lia. }
  apply Qfloor_div60_any.
Qed.

Lemma Qfloor_rem60_any q :
  (0 <= q)%Q ->
  Qfloor (q - inject_Z 60 * inject_Z (Qtrunc (q / inject_Z 60))) = Qfloor q mod 60.
Proof.
  intros Hq. rewrite Qtrunc_div60_any by assumption.
  assert (q - inject_Z 60 * inject_Z (Qfloor q / 60)
          == q + inject_Z (- (60 * (Qfloor q / 60))))%Q as E.
  { unfold Qminus. rewrite inject_Z_opp, inject_Z_mult. reflexivity. }
  rewrite E, Qfloor_plus_Z. rewrite Z.mod_eq by lia. lia.
Qed.

Lemma formatTime_of_floor (q : Q) :
  (0 <= q)%Q -> formatTime (Fin q) = formatTime (of_Z (Qfloor q)).
Proof.
  intros Hq. rewrite formatTime_whole by (apply Qfloor_nonneg; exact Hq).
  unfold formatTime, of_Z. cbn [isNaN ltb orb div rem].
  assert (Qle_bool (inject_Z 0) q = true) as -> by (apply Qle_bool_iff; exact Hq).
  change (Qeq_bool (inject_Z 60) 0) with false. cbv iota. cbn [negb Math_floor].
  rewrite Qfloor_div60_any, Qfloor_rem60_any by assumption. reflexivity.
Qed.

(** X1. [formatTime] drops the fraction of a second: a non-negative number
    is shown as its floor is. *)
Theorem formatTime_drops_fraction (q : Q) :
  (0 <= q)%Q -> formatTime (Fin q) = formatTime (of_Z (Qfloor q)).
Proof. exact (formatTime_of_floor q). Qed.

Lemma formatTime_drops_fraction_witness :
  formatTime (Fin (1511 # 20)) = formatTime (of_Z (Qfloor (1511 # 20))).
Proof. apply (formatTime_drops_fraction (1511 # 20)). discriminate. Defined.

(** X2. Reading back what [formatTime] wrote gives the whole seconds of the
    number: its floor when the number is not negative and the floor is
    below 2^53, 0 when the number is negative or [NaN]. *)
Theorem parseTimeInput_formatTime_floor :
  (forall q : Q,
     (0 <= q)%Q -> Qfloor q < two53 ->
     parseTimeInput (formatTime (Fin q)) = IInt (Qfloor q)) /\
  (forall q : Q, (q < 0)%Q -> parseTimeInput (formatTime (Fin q)) = IInt 0) /\
  parseTimeInput (formatTime NaN) = IInt 0.
Proof.
  split; [| split].
  - intros q Hq Hlt. rewrite formatTime_of_floor by assumption.
    apply parseTimeInput_formatTime. split; [| assumption].
    apply Qfloor_nonneg, Hq.
  - intros q Hq. rewrite formatTime_negative by assumption. reflexivity.
  - reflexivity.
Qed.

Lemma parseTimeInput_formatTime_floor_witness :
  parseTimeInput (formatTime (Fin (1511 # 20))) = IInt 75 /\
  parseTimeInput (formatTime (Fin (-1 # 2))) = IInt 0.
Proof.
  split.
  - apply (proj1 parseTimeInput_formatTime_floor (1511 # 20));
      [discriminate | reflexivity].
  - apply (proj1 (proj2 parseTimeInput_formatTime_floor) (-1 # 2)). reflexivity.
Defined.

#[local] Arguments digits : simpl never.

Lemma all_digits_no_colon s : all_digits s = true -> View.no_colon s = true.
Proof.
  induction s as [| c s IH]; cbn [all_digits View.no_colon]; [reflexivity |].
  destruct (digit_value c) as [d |] eqn:Hd; [| discriminate].
  intros H. rewrite (digit_not_colon c d Hd), (IH H). reflexivity.
Qed.

Lemma split_no_colon s : View.no_colon s = true -> split ":" s = [s].
Proof.
  induction s as [| c s IH]; cbn [View.no_colon split]; [reflexivity |].
  destruct (Ascii.eqb c ":"); [discriminate |]. cbn [negb andb].
  intros H. rewrite (IH H). reflexivity.
Qed.

Lemma split_no_colon_then s t :
  View.no_colon s = true -> split ":" (s ++ String ":" t) = s :: split ":" t.
Proof.
  induction s as [| c s IH]; cbn [View.no_colon split append]; [reflexivity |].
  destruct (Ascii.eqb c ":"); [discriminate |]. cbn [negb andb].
  intros H. rewrite (IH H). reflexivity.
Qed.

Lemma toString_whole n :
  - two53 < n < two53 ->
  toString (Some n) = if n <? 0 then String "-" (digits (- n)) else digits n.
Proof.
  intros H. unfold toString. rewrite to_double_small by assumption.
  unfold magnitude_text.
  destruct (Z.ltb_spec n 0).
  - destruct (Z.ltb_spec (- n) two53); [reflexivity | lia].
  - destruct (Z.ltb_spec n two53); [reflexivity | lia].
Qed.

Lemma toString_no_colon n :
  - two53 < n < two53 -> View.no_colon (toString (Some n)) = true.
Proof.
  intros H. rewrite toString_whole by assumption. destruct (Z.ltb_spec n 0).
  - cbn [View.no_colon]. change (Ascii.eqb "-" ":") with false.
    apply all_digits_no_colon, digits_all_digits. lia.
  - apply all_digits_no_colon, digits_all_digits. assumption.
Qed.

(** [parseInt] reads back the decimal text of an integer below 2^53 in
    absolute value. *)
Lemma parseInt_toString n :
  - two53 < n < two53 -> parseInt (toString (Some n)) = IInt n.
Proof.
  intros H. rewrite toString_whole by assumption. destruct (Z.ltb_spec n 0).
  - unfold parseInt. cbn [trimStart].
    change (isWhiteSpace "-") with false. cbv iota.
    rewrite parse_digits_digits; [| lia | left; reflexivity].
    cbn [of_run]. rewrite to_double_small by lia. f_equal. lia.
  - rewrite parseInt_all_digits;
      [| apply digits_all_digits; assumption | apply digits_nonempty].
    rewrite parse_digits_digits; [| assumption | left; reflexivity].
    cbn [of_run]. apply to_double_small. lia.
Qed.

(** X3. [parseTimeInput] checks neither padding, sign nor range: for two
    integers written in decimal and joined by a colon it answers
    [60 * minutes + seconds], as long as [60 * |minutes| + |seconds|] is
    below 2^53. *)
Theorem parseTimeInput_any_integers (mins secs : Z) :
  60 * Z.abs mins + Z.abs secs < two53 ->
  parseTimeInput (toString (Some mins) ++ ":" ++ toString (Some secs))
  = IInt (mins * 60 + secs).
Proof.
  intros H. unfold parseTimeInput. cbn [append].
  rewrite split_no_colon_then by (apply toString_no_colon; lia).
  rewrite split_no_colon by (apply toString_no_colon; lia).
  rewrite !parseInt_toString by lia.
  cbn [isNaN_integral orb mul].
  rewrite to_double_small by lia. cbn [add].
  apply to_double_small. lia.
Qed.

Lemma parseTimeInput_any_integers_witness :
  parseTimeInput (toString (Some (-1)) ++ ":" ++ toString (Some 99)) = IInt 39.
Proof. apply (parseTimeInput_any_integers (-1) 99). reflexivity. Defined.

Example parseTimeInput_seconds_over_59 : parseTimeInput "1:99" = IInt 159.
Proof. reflexivity. Qed.

Example parseTimeInput_negative_minutes : parseTimeInput "-1:30" = IInt (-30).
Proof. reflexivity. Qed.

(** X4. A blur normalises the field.  When [0 <= max < 2^53] and the text
    does not read as [NaN], the text the blur puts back reads as the
    committed value, so a second blur on that text commits the same value
    and shows the same text.  When the text reads as [NaN], the blur
    commits [NaN] and shows "00:00", and a second blur commits 0. *)
Theorem handleBlur_idempotent (max : Z) (text : string) :
  0 <= max < two53 ->
  (parseTimeInput text <> INaN ->
   parseTimeInput (TimeInput.inputValue (TimeInput.handleBlur max text))
   = TimeInput.onChange (TimeInput.handleBlur max text) /\
   TimeInput.handleBlur max (TimeInput.inputValue (TimeInput.handleBlur max text))
   = TimeInput.handleBlur max text) /\
  (parseTimeInput text = INaN ->
   TimeInput.handleBlur max text
   = {| TimeInput.onChange := INaN; TimeInput.inputValue := "00:00" |} /\
   TimeInput.handleBlur max (TimeInput.inputValue (TimeInput.handleBlur max text))
   = {| TimeInput.onChange := IInt 0; TimeInput.inputValue := "00:00" |}).
Proof.
  intros Hmax. unfold TimeInput.handleBlur.
  cbn [TimeInput.inputValue TimeInput.onChange]. split.
  - intros Hnum.
    destruct (clamp_number (parseTimeInput text) max Hnum (proj1 Hmax))
      as (z & -> & Hz).
    cbn [TimeInput.shown].
    rewrite parseTimeInput_formatTime by lia.
    split; [reflexivity |]. cbn [Math_max Math_min].
    replace (Z.min (Z.max 0 z) max) with z by lia. reflexivity.
  - intros ->. cbn [Math_max Math_min TimeInput.shown].
    split; [reflexivity |].
    change (parseTimeInput (formatTime NaN)) with (IInt 0).
    cbn [Math_max Math_min TimeInput.shown].
    replace (Z.min (Z.max 0 0) max) with 0 by lia. reflexivity.
Qed.

Lemma handleBlur_idempotent_witness :
  TimeInput.handleBlur 180 (TimeInput.inputValue (TimeInput.handleBlur 180 "2:75"))
  = TimeInput.handleBlur 180 "2:75" /\
  TimeInput.handleBlur 180
    (TimeInput.inputValue (TimeInput.handleBlur 180 Sample.overflowing_text))
  = {| TimeInput.onChange := IInt 0; TimeInput.inputValue := "00:00" |}.
Proof.
  assert (0 <= 180 < two53) as Hmax by (split; [discriminate | reflexivity]).
  split.
  - apply (proj1 (handleBlur_idempotent 180 "2:75" Hmax)).
    vm_compute. discriminate.
  - apply (proj2 (handleBlur_idempotent 180 Sample.overflowing_text Hmax)).
    vm_compute. reflexivity.
Defined.

End TimeExtras.


(** ** More on [handleConvert] and [handleDownload] *)

Module HandlerExtras.

Import Net App Requests View.

#[local] Arguments get_error : simpl never.
#[local] Arguments error_message : simpl never.

(** *** Exceptions *)

Lemma never_throws_ret {A} (a : A) : never_throws (ret a).
Proof. intros w. exists a. reflexivity. Qed.

Lemma never_throws_bind {A B} (m : M A) (k : A -> M B) :
  never_throws m -> (forall a, never_throws (k a)) -> never_throws (bind m k).
Proof.
  intros Hm Hk w. unfold bind. destruct (Hm w) as [a Ha].
  destruct (m w) as [[a' | msg] w']; cbn in Ha; [| discriminate].
  apply Hk.
Qed.

(** Whatever the body of a [try] does, a handler that never throws makes
    the whole statement safe. *)
Lemma never_throws_try_catch {A} (m : M A) (h : string -> M A) :
  (forall msg, never_throws (h msg)) -> never_throws (try_catch m h).
Proof.
  intros Hh w. unfold try_catch.
  destruct (m w) as [[a | msg] w']; [exists a; reflexivity | apply Hh].
Qed.

Ltac safe_steps :=
  repeat lazymatch goal with
    | |- never_throws (ret _) => apply never_throws_ret
    | |- never_throws (bind _ _) => apply never_throws_bind; [| intros ?]
    | |- never_throws (try_catch _ _) => apply never_throws_try_catch; intros ?
    | |- never_throws (if ?b then _ else _) => destruct b
    | |- never_throws (match ?x with _ => _ end) => destruct x
    | |- never_throws _ => solve [intros ?; eexists; reflexivity]
    end.

(** X5. Neither [handleConvert] nor [handleDownload] ends in an uncaught
    exception: a rejected [fetch], a body that is not JSON, a body that is
    [null], an [error] member that cannot be made a string and a failing
    [blob()] all happen inside the [try] block, and the [catch] block only
    sets two state cells. *)
Theorem handlers_never_throw (env : Env) (c : State) (w : World) :
  fst (handleConvert env c w) = Return tt /\
  fst (handleDownload env c w) = Return tt.
Proof.
  assert (never_throws (handleConvert env c)) as Hc.
  { cbv [handleConvert]; safe_steps. }
  assert (never_throws (handleDownload env c)) as Hd.
  { cbv [handleDownload]; safe_steps. }
  destruct (Hc w) as [[] Ha], (Hd w) as [[] Hb]. split; assumption.
Qed.

Example null_body_is_caught :
  fst (handleConvert (Sample.answer Sample.failed_with_null)
         (state Sample.typed) Sample.typed) = Return tt /\
  status (state (snd (handleConvert (Sample.answer Sample.failed_with_null)
                        (state Sample.typed) Sample.typed)))
  = "Failed to convert".
Proof. vm_compute. split; reflexivity. Qed.

(** *** [handleConvert], outcome by outcome *)

(** The ways through the three awaits of a refused response. *)
Ltac refused_cases resp :=
  destruct (json resp) as [d | msg] eqn:Hjson; cbn;
  [ destruct (get_error d) as [member | msg] eqn:Hmember; cbn;
    [ destruct (error_message member _) as [text | msg] eqn:Htext | ]
  | ].

(** Split a run of [handleConvert] into its ways through the code. *)
Ltac convert_cases env c :=
  unfold handleConvert;
  destruct (matches_youtube (url (formData c))) eqn:Hurl;
  [ rewrite (matches_youtube_nonempty _ Hurl);
    remember (post (convertBody c)) as req;
    cbv [bind try_catch do_fetch await orb negb]; cbn;
    destruct (fetch env req) as [resp | msg] eqn:Hfetch; cbn;
    [ destruct (ok resp) eqn:Hok; cbn;
      [ destruct (blob resp) as [b | msg] eqn:Hblob
      | refused_cases resp ]
    | ]
  | rewrite orb_true_r ];
  cbn.

(** X6. A Convert click resets the player whatever happens next: the range
    is [0, 1000] again, the clip length 1000, the position 0, nothing
    plays, and the element behind [audioRef] is paused, rewound and
    unloaded.  The form is left as it was and nothing is downloaded. *)
Theorem handleConvert_resets_player (env : Env) (c : State) (w : World) :
  let w' := snd (handleConvert env c w) in
  rangeValues (state w') = (0, 1000) /\
  audioDuration (state w') = 1000 /\
  currentTime (state w') = Js.of_Z 0 /\
  isPlaying (state w') = false /\
  audioRef w' = option_map unload (audioRef w) /\
  formData (state w') = formData (state w) /\
  clicked w' = clicked w.
Proof.
  cbv zeta. convert_cases env c; repeat split; reflexivity.
Qed.





(** *** [handleDownload], outcome by outcome *)

Ltac download_cases env c :=
  unfold handleDownload;
  destruct (audioUrl c) as [| x0 u0] eqn:Hurl;
  [ cbn
  | replace (String.eqb (String x0 u0) EmptyString) with false by reflexivity;
    remember (post (downloadBody c)) as req;
    cbv [bind try_catch do_fetch await]; cbn;
    destruct (fetch env req) as [resp | msg] eqn:Hfetch; cbn;
    [ destruct (ok resp) eqn:Hok; cbn;
      [ destruct (blob resp) as [b | msg] eqn:Hblob
      | refused_cases resp ]
    | ];
    cbn ].

(** X9. A Download click leaves the preview alone: whatever the outcome,
    the form, the range, the clip length, the preview URL, the converted
    flag, the title, the playback state and the audio element are as
    before.  Without a preview URL it changes nothing at all. *)
Theorem handleDownload_keeps_preview (env : Env) (w : World) :
  let w' := snd (handleDownload env (state w) w) in
  (formData (state w') = formData (state w) /\
   rangeValues (state w') = rangeValues (state w) /\
   audioDuration (state w') = audioDuration (state w) /\
   audioUrl (state w') = audioUrl (state w) /\
   isConverted (state w') = isConverted (state w) /\
   videoTitle (state w') = videoTitle (state w) /\
   isPlaying (state w') = isPlaying (state w) /\
   currentTime (state w') = currentTime (state w) /\
   audioRef w' = audioRef w) /\
  (audioUrl (state w) = "" -> w' = w).
Proof.
  cbv zeta. download_cases env (state w);
    (split; [repeat split; (reflexivity || congruence)
            | intros H; try discriminate H]).
  destruct w as [[] ? ? ?]. reflexivity.
Qed.

(** X10. With a preview, a Download click sends its request and ends in
    one of two ways.  If [fetch] resolves with an ok response whose
    [blob()] resolves, exactly one anchor is clicked, named after the title
    field (or "download" when it is empty) with ".mp3" appended, the status
    becomes "Download complete!" and the error cell is left as it was.  If
    [fetch] rejects, or the response is not ok, or its [blob()] rejects, no
    anchor is clicked, the error cell is set and the status becomes
    "Failed to download"; after a rejection the error cell holds the
    rejection's message. *)
Theorem handleDownload_outcome (env : Env) (w : World) :
  audioUrl (state w) <> "" ->
  let w' := snd (handleDownload env (state w) w) in
  sent (handleDownload env (state w)) w = [post (downloadBody (state w))] /\
  (forall resp b,
      fetch env (post (downloadBody (state w))) = Resolved resp ->
      ok resp = true ->
      blob resp = Resolved b ->
      clicked w' =
        (clicked w ++
         [{| href := createObjectURL env b;
             download :=
               Js.or_else (title (formData (state w))) "download" ++ ".mp3" |}])%list /\
      status (state w') = "Download complete!" /\
      App.error (state w') = App.error (state w)) /\
  (forall message,
      fetch env (post (downloadBody (state w))) = Rejected message \/
      (exists resp,
          fetch env (post (downloadBody (state w))) = Resolved resp /\
          ok resp = true /\ blob resp = Rejected message) ->
      clicked w' = clicked w /\
      App.error (state w') = Some message /\
      status (state w') = "Failed to download") /\
  (forall resp,
      fetch env (post (downloadBody (state w))) = Resolved resp ->
      ok resp = false ->
      clicked w' = clicked w /\
      (exists message, App.error (state w') = Some message) /\
      status (state w') = "Failed to download").
Proof.
  intros Hne. cbv zeta. split.
  { apply sent_of_log. rewrite handleDownload_log.
    destruct (audioUrl (state w)); [congruence | reflexivity]. }
  download_cases env (state w); try subst req; [congruence | ..].
  all: split; [| split].
  all: try (intros r' b' Hf' Ho' Hb';
            first [ congruence
                  | injection Hf' as <-; rewrite Hblob in Hb';
                    injection Hb' as <-; repeat split; reflexivity ]).
  all: try (intros m' [Hf' | (r' & Hf' & Ho' & Hb')];
            first [ congruence
                  | injection Hf' as <-; repeat split; reflexivity
                  | injection Hf' as <-; rewrite Hblob in Hb';
                    injection Hb' as <-; repeat split; reflexivity ]).
  all: try (intros r' Hf' Ho';
            first [ congruence
                  | repeat split; try reflexivity; eexists; reflexivity ]).
Qed.

Lemma handleDownload_outcome_witness :
  List.length
    (clicked (snd (handleDownload (Sample.answer Sample.converted)
                     (state Sample.trimmed) Sample.trimmed))) = 1%nat /\
  status
    (state (snd (handleDownload (Sample.answer Sample.unavailable)
                   (state Sample.trimmed) Sample.trimmed)))
  = "Failed to download".
Proof.
  assert (audioUrl (state Sample.trimmed) <> "") as Hne
    by (vm_compute; discriminate).
  split.
  - destruct (proj1 (proj2 (handleDownload_outcome (Sample.answer Sample.converted)
                              Sample.trimmed Hne))
                Sample.converted "ID3" eq_refl eq_refl eq_refl) as (Hc & _).
    rewrite Hc. reflexivity.
  - apply (proj2 (proj2 (proj2 (handleDownload_outcome
                                  (Sample.answer Sample.unavailable)
                                  Sample.trimmed Hne)))
             Sample.unavailable eq_refl eq_refl).
Defined.

(** X11. [handleDownload] never clears the error cell.  So when an error
    is on display, a download that then succeeds still shows that error,
    and its "Download complete!" status is not shown. *)
Theorem successful_download_keeps_old_error
    (env : Env) (w : World) (response : Response) (data : Blob) (shown : string) :
  audioUrl (state w) <> "" ->
  fetch env (post (downloadBody (state w))) = Resolved response ->
  ok response = true ->
  blob response = Resolved data ->
  displayedError (state w) = Some shown ->
  let s' := state (snd (handleDownload env (state w) w)) in
  status s' = "Download complete!" /\
  displayedError s' = Some shown /\
  displayedStatus s' = None.
Proof.
  intros Hne Hf Hk Hb Hm. cbv zeta.
  download_cases env (state w); try subst req; try congruence.
  unfold displayedError, displayedStatus in *. cbn.
  destruct (App.error (state w)) as [[| a e] |]; try discriminate.
  repeat split; assumption || reflexivity.
Qed.

Lemma successful_download_keeps_old_error_witness :
  displayedStatus
    (state (snd (handleDownload (Sample.answer Sample.converted)
       (state (dispatch (Download (Sample.answer Sample.unavailable)) Sample.trimmed))
       (dispatch (Download (Sample.answer Sample.unavailable)) Sample.trimmed))))
  = None.
Proof.
  assert (audioUrl (state (dispatch (Download (Sample.answer Sample.unavailable))
                             Sample.trimmed)) <> "") as Hne
    by (vm_compute; discriminate).
  assert (displayedError (state (dispatch (Download (Sample.answer Sample.unavailable))
                                   Sample.trimmed)) = Some "Video unavailable") as Hm
    by (vm_compute; reflexivity).
  apply (successful_download_keeps_old_error
           (Sample.answer Sample.converted)
           (dispatch (Download (Sample.answer Sample.unavailable)) Sample.trimmed)
           Sample.converted "ID3" "Video unavailable"
           Hne eq_refl eq_refl eq_refl Hm).
Defined.

End HandlerExtras.

(** ** Whole sessions *)

Module SessionExtras.

Import Net App Requests View.

Lemma same_preview_refl w : same_preview w w.
Proof. repeat split. Qed.

Lemma same_preview_trans a b c :
  same_preview a b -> same_preview b c -> same_preview a c.
Proof. unfold same_preview. intros (? & ? & ?) (? & ? & ?). repeat split; congruence. Qed.

Ltac preview_prim :=
  solve [ intros ?; repeat split; reflexivity
        | intros ?; unfold do_fetch; destruct (Net.fetch _ _);
          repeat split; reflexivity ].

(** Only [handleConvert] writes the preview cells. *)
Lemma other_handlers_keep_preview e c :
  match e with
  | Convert _ => True
  | _ => keeps same_preview (handler e c)
  end.
Proof.
  destruct e; try exact I;
    cbv [handler handleChange handleDownload togglePlay handleStartTimeChange
         handleEndTimeChange updateTime onTimeUpdate onEnded
         onLoadedMetadata_then_handleMetadata handleMetadata seek];
    Frame.steps same_preview_refl same_preview_trans preview_prim.
Qed.

Lemma handleConvert_preview_flag env c w :
  audioUrl (state (snd (handleConvert env c w))) <> "" ->
  isConverted (state (snd (handleConvert env c w))) = true.
Proof.
  HandlerExtras.convert_cases env c; intros H; (reflexivity || congruence).
Qed.

Lemma preview_url_means_converted es :
  audioUrl (state (run es initialWorld)) <> "" ->
  isConverted (state (run es initialWorld)) = true.
Proof.
  induction es as [| e es IH] using rev_ind; [cbn; congruence |].
  rewrite run_snoc. unfold dispatch.
  set (w := run es initialWorld) in *.
  pose proof (other_handlers_keep_preview e (state w)) as Hk.
  destruct e; try (destruct (Hk w) as (-> & -> & _); exact IH).
  apply handleConvert_preview_flag.
Qed.

(** X12. Downloads come after conversions: in any session, an event sends
    a download request only if the page is in the converted state, that
    is, only after a Convert click whose conversion succeeded and that no
    later Convert click has undone. *)
Theorem download_only_when_converted (es : list Event) (env : Env) :
  let w := run es initialWorld in
  sent (handler (Download env) (state w)) w <> [] ->
  isConverted (state w) = true.
Proof.
  intros w. rewrite sent_by_event. intros H.
  apply preview_url_means_converted. fold w.
  destruct (audioUrl (state w)); [contradiction | discriminate].
Qed.

Lemma download_only_when_converted_witness :
  isConverted (state Sample.trimmed) = true.
Proof.
  apply (download_only_when_converted
           [Change f_url "https://youtu.be/abc";
            Convert (Sample.answer Sample.converted);
            Change f_title "My song"; Slide (30, 90)]
           (Sample.answer Sample.converted)).
  vm_compute. discriminate.
Defined.

(** X13. [handleDownload] does not repeat the URL check.  With a preview
    in place it sends exactly one request, whose [url] member is whatever
    the URL field holds at that moment, also when [handleConvert] would
    refuse that text and send nothing. *)
Theorem handleDownload_skips_url_check (env : Env) (w : World) :
  audioUrl (state w) <> "" ->
  (exists r,
      sent (handleDownload env (state w)) w = [r] /\
      member "url" (body r) = Some (JString (url (formData (state w))))) /\
  (matches_youtube (url (formData (state w))) = false ->
   sent (handleConvert env (state w)) w = []).
Proof.
  intros Hne. split.
  - exists (post (downloadBody (state w))). split.
    + apply sent_of_log. rewrite handleDownload_log.
      destruct (audioUrl (state w)); [contradiction | reflexivity].
    + reflexivity.
  - intros Hu. apply sent_of_log. rewrite handleConvert_log, Hu, orb_true_r.
    reflexivity.
Qed.

Lemma handleDownload_skips_url_check_witness :
  sent (handleConvert (Sample.answer Sample.converted)
          (state (dispatch (Change f_url "not-a-url") Sample.trimmed)))
       (dispatch (Change f_url "not-a-url") Sample.trimmed) = [] /\
  List.length
    (sent (handleDownload (Sample.answer Sample.converted)
             (state (dispatch (Change f_url "not-a-url") Sample.trimmed)))
          (dispatch (Change f_url "not-a-url") Sample.trimmed)) = 1%nat.
Proof.
  assert (audioUrl (state (dispatch (Change f_url "not-a-url") Sample.trimmed))
          <> "") as Hne by (vm_compute; discriminate).
  destruct (handleDownload_skips_url_check (Sample.answer Sample.converted)
              (dispatch (Change f_url "not-a-url") Sample.trimmed) Hne)
    as [(r & Hr & _) Hc].
  split.
  - apply Hc. vm_compute. reflexivity.
  - rewrite Hr. reflexivity.
Defined.

(** X14. The page never retries and never polls the server: the number of
    requests sent in a session is at most the number of clicks on Convert
    and Download in it. *)
Theorem requests_bounded_by_clicks (es : list Event) :
  (List.length (requests (run es initialWorld))
   <= List.length (filter is_click es))%nat.
Proof.
  induction es as [| e es IH] using rev_ind; [cbn; lia |].
  rewrite run_snoc, filter_app, length_app. unfold dispatch.
  set (w := run es initialWorld) in *.
  pose proof (local_handler_log e (state w)) as Hk.
  destruct e; try (rewrite (Hk w); cbn; lia).
  - cbn [handler]. rewrite handleConvert_log, length_app.
    destruct (_ || _); cbn; lia.
  - cbn [handler]. rewrite handleDownload_log, length_app.
    destruct (_ =? _)%string; cbn; lia.
Qed.

(** *** The trim window in a regular session *)

Lemma same_range_refl w : same_range w w.
Proof. split; reflexivity. Qed.

Lemma same_range_trans a b c : same_range a b -> same_range b c -> same_range a c.
Proof. unfold same_range. intros [] []. split; congruence. Qed.

Ltac range_prim :=
  solve [ intros ?; split; reflexivity
        | intros ?; unfold do_fetch; destruct (Net.fetch _ _); split; reflexivity ].

(** The handlers that write neither the range nor the clip length. *)
Lemma quiet_handlers_keep_range e c :
  match e with
  | Convert _ | StartTimeChange _ | EndTimeChange _ | Slide _
  | LoadedMetadata | MetadataReady => True
  | _ => keeps same_range (handler e c)
  end.
Proof.
  destruct e; try exact I;
    cbv [handler handleChange handleDownload togglePlay updateTime
         onTimeUpdate onEnded seek];
    Frame.steps same_range_refl same_range_trans range_prim.
Qed.

(** A whole number committed by a blur lies in [0, max]. *)
Lemma committed_number_in_range max text z :
  0 <= max ->
  TimeInput.onChange (TimeInput.handleBlur max text) = Js.IInt z ->
  0 <= z <= max.
Proof.
  intros Hmax. cbn [TimeInput.handleBlur TimeInput.onChange]. intros H.
  destruct (parseTimeInput text) as [| neg | a] eqn:E.
  - discriminate H.
  - destruct neg; cbn in H; injection H as <-; lia.
  - cbn in H. injection H as <-. lia.
Qed.

Lemma handleMetadata_keeps_window w :
  valid_window (state w) -> lasts_a_second w ->
  valid_window (state (snd (handleMetadata w))).
Proof.
  intros (H0 & Hlt & Hle) Hreg. unfold valid_window, handleMetadata.
  unfold lasts_a_second in Hreg.
  cbv [bind audioRef_current]. cbn [fst snd].
  destruct (audioRef w) as [a |]; [| cbn; lia].
  destruct (Audio.duration a) as [| q]; [cbn; lia |].
  cbn [truthy Js.isNaN Js.Math_floor negb andb].
  destruct (Qeq_bool q 0) eqn:Eq; cbn; [lia |].
  destruct Hreg as [Hz | Hone].
  - apply Qeq_bool_iff in Hz. congruence.
  - assert (1 <= Qfloor q).
    { change 1 with (Qfloor (inject_Z 1)). apply Qfloor_resp_le. exact Hone. }
    lia.
Qed.

Lemma regular_step_keeps_window e w :
  valid_window (state w) -> regular e w -> valid_window (state (dispatch e w)).
Proof.
  intros Hw Hreg. pose proof Hw as (H0 & Hlt & Hle).
  unfold valid_window, dispatch.
  pose proof (quiet_handlers_keep_range e (state w)) as Hk.
  destruct e; try (destruct (Hk w) as [-> ->]; repeat split; assumption).
  - (* Convert *)
    cbn [handler]. HandlerExtras.convert_cases env (state w); lia.
  - (* StartTimeChange *)
    destruct Hreg as [text Htext].
    apply committed_number_in_range in Htext; [| lia].
    cbn [handler]. unfold handleStartTimeChange. cbv [bind audioRef_current].
    cbn [setRangeValues modify fst snd state audioRef].
    destruct (audioRef w); [destruct (isPlaying (state w)) |]; cbn; lia.
  - (* EndTimeChange *)
    destruct Hreg as [text Htext].
    apply committed_number_in_range in Htext; [| lia].
    cbn [handler]. unfold handleEndTimeChange. cbn. lia.
  - (* Slide *)
    cbn in *. lia.
  - (* LoadedMetadata *)
    cbn [handler regular] in *. unfold onLoadedMetadata_then_handleMetadata.
    cbv [bind audioRef_current]. cbn [fst snd].
    destruct (audioRef w) as [a |] eqn:Ha; [| cbn; lia].
    destruct (truthy (Audio.duration a)).
    + apply (handleMetadata_keeps_window w Hw Hreg).
    + cbn. lia.
  - (* MetadataReady *)
    apply (handleMetadata_keeps_window w Hw Hreg).
Qed.

Lemma regular_session_keeps_window_aux (w : World) :
  session w -> valid_window (state w).
Proof.
  induction 1 as [| e w Hs IH Hreg].
  - cbn. unfold valid_window. cbn. lia.
  - apply regular_step_keeps_window; assumption.
Qed.

(** X15. In a regular session the range is always a window of at least
    one second inside the clip:
    [0 <= rangeValues[0] < rangeValues[1] <= audioDuration].  A session is
    regular when the slider reports windows inside the clip, loaded clips
    last at least a second, and every commit of a time input is a whole
    number that a blur of that input makes from some text; a blur whose
    text reads as [NaN] is not part of a regular session. *)
Theorem regular_session_keeps_window (w : World) :
  session w -> valid_window (state w).
Proof. exact (regular_session_keeps_window_aux w). Qed.

Lemma regular_session_witness :
  valid_window
    (state (dispatch (EndTimeChange 5)
              (dispatch (Slide (30, 90)) initialWorld))).
Proof.
  apply regular_session_keeps_window.
  apply session_step; [apply session_step; [apply session_start |] |].
  - vm_compute. repeat split; discriminate.
  - exists "00:05". vm_compute. reflexivity.
Defined.

(** What a regular session leaves out: a blur of the start input whose
    text reads as [NaN] commits [NaN], and [Math.min(NaN, end - 1)] is
    [NaN]; no [StartTimeChange] event stands for it. *)
Example overflowing_text_is_no_commit :
  TimeInput.onChange (startInput (state Sample.trimmed) Sample.overflowing_text)
  = Js.INaN.
Proof. vm_compute. reflexivity. Qed.

(** X16. Hence every download request of a regular session (one in which
    no blur commits [NaN]) carries a window of at least one second: its
    [start] and [end] members are numbers with [0 <= start],
    [start + 1 <= end] and [end <= audioDuration]. *)
Theorem regular_download_window (w : World) (env : Env) (r : Request) :
  session w ->
  In r (sent (handler (Download env) (state w)) w) ->
  exists a b,
    member "start" (body r) = Some (JNumber a) /\
    member "end" (body r) = Some (JNumber b) /\
    0 <= a /\ a + 1 <= b /\ b <= audioDuration (state w).
Proof.
  intros Hs. rewrite sent_by_event. intros Hin.
  destruct (regular_session_keeps_window_aux w Hs) as (H0 & Hlt & Hle).
  destruct (_ =? _)%string; [contradiction |]. destruct Hin as [<- | []].
  exists (fst (rangeValues (state w))), (snd (rangeValues (state w))).
  cbn [post body]. unfold downloadBody.
  destruct (formData (state w)) as [u t a al g st en].
  cbn [title artist album genre url].
  destruct t, a, al, g; (split; [reflexivity | split; [reflexivity | lia]]).
Qed.

Lemma trimmed_is_a_session : session Sample.trimmed.
Proof.
  change (session
            (dispatch (Slide (30, 90))
               (dispatch (Change f_title "My song")
                  (dispatch (Convert (Sample.answer Sample.converted))
                     (dispatch (Change f_url "https://youtu.be/abc")
                        initialWorld))))).
  repeat (apply session_step; [| try exact I]); [apply session_start |].
  vm_compute. repeat split; discriminate.
Qed.

Lemma regular_download_window_witness :
  exists a b,
    member "start" (body (post (downloadBody (state Sample.trimmed))))
    = Some (JNumber a) /\
    member "end" (body (post (downloadBody (state Sample.trimmed))))
    = Some (JNumber b) /\
    0 <= a /\ a + 1 <= b /\ b <= audioDuration (state Sample.trimmed).
Proof.
  apply (regular_download_window Sample.trimmed
           (Sample.answer Sample.converted) _ trimmed_is_a_session).
  vm_compute. left. reflexivity.
Defined.

End SessionExtras.

(** ** More on the preview player *)

Module PlayerExtras.

Import App View.

(** X17. [togglePlay] keeps the flag and the element in step: with an
    audio element, afterwards the element is paused exactly when
    [isPlaying] is false, [isPlaying] has flipped, and a playback that
    starts does so from [rangeValues[0]].  Without an element nothing
    changes, the flag included. *)
Theorem togglePlay_keeps_in_step (w : World) :
  let w' := snd (togglePlay (state w) w) in
  (forall a, audioRef w = Some a ->
     exists a',
       audioRef w' = Some a' /\
       Audio.paused a' = negb (isPlaying (state w')) /\
       isPlaying (state w') = negb (isPlaying (state w)) /\
       (isPlaying (state w) = false ->
        Audio.currentTime a' = Js.of_Z (fst (rangeValues (state w)))) /\
       (isPlaying (state w) = true ->
        Audio.currentTime a' = Audio.currentTime a)) /\
  (audioRef w = None -> w' = w).
Proof.
  cbv zeta. unfold togglePlay. cbv [bind audioRef_current]. cbn [fst snd].
  split.
  - intros a Ha. rewrite Ha. destruct (isPlaying (state w)) eqn:Hp; cbn;
      rewrite Ha; cbn; eexists; repeat split; (reflexivity || discriminate).
  - intros Ha. rewrite Ha. reflexivity.
Qed.

Lemma togglePlay_witness :
  exists a',
    audioRef (snd (togglePlay (state Sample.overrun) Sample.overrun)) = Some a' /\
    Audio.paused a' = false.
Proof.
  destruct (proj1 (togglePlay_keeps_in_step Sample.overrun)
              Sample.playing_at_95 eq_refl)
    as (a' & Ha & Hp & Hf & _).
  exists a'. split; [exact Ha |]. rewrite Hp, Hf. reflexivity.
Defined.

(** X18. Before the end of the range the watchers let playback run: when
    the position is below [rangeValues[1]] (or is [NaN]), [onTimeUpdate]
    changes nothing, and [updateTime] only copies the position into
    [currentTime]. *)
Theorem watchers_idle_before_end (c : State) (w : World) (a : Audio.t) :
  audioRef w = Some a ->
  Js.geb (Audio.currentTime a) (Js.of_Z (snd (rangeValues c))) = false ->
  snd (onTimeUpdate c w) = w /\
  (let w' := snd (updateTime c w) in
   currentTime (state w') = Audio.currentTime a /\
   audioRef w' = audioRef w /\
   isPlaying (state w') = isPlaying (state w) /\
   rangeValues (state w') = rangeValues (state w)).
Proof.
  intros Ha Hlt. split.
  - unfold onTimeUpdate. cbv [bind audioRef_current]. cbn [fst snd].
    rewrite Ha, Hlt. reflexivity.
  - cbv zeta. unfold updateTime. cbv [bind audioRef_current]. cbn [fst snd].
    rewrite Ha. cbn [setCurrentTime modify fst snd]. rewrite Hlt.
    cbn. repeat split; (reflexivity || congruence).
Qed.

Lemma watchers_idle_witness :
  snd (onTimeUpdate (state (dispatch (Slide (30, 120)) Sample.overrun))
         (dispatch (Slide (30, 120)) Sample.overrun))
  = dispatch (Slide (30, 120)) Sample.overrun.
Proof.
  apply (proj1 (watchers_idle_before_end
                  (state (dispatch (Slide (30, 120)) Sample.overrun))
                  (dispatch (Slide (30, 120)) Sample.overrun)
                  Sample.playing_at_95 eq_refl eq_refl)).
Defined.

(** X19. [handleMetadata] takes the clip length from the element: a
    duration that is [NaN] or zero changes nothing; any other duration [d]
    makes the clip length [floor(d)] and the range the whole clip,
    [0, floor(d)].  The label "Duration" then reads as [formatTime] of the
    element's own duration when that is not negative. *)
Theorem handleMetadata_takes_floor (w : World) (a : Audio.t) :
  audioRef w = Some a ->
  let w' := snd (handleMetadata w) in
  (Audio.duration a = Js.NaN -> w' = w) /\
  (forall q, Audio.duration a = Js.Fin q -> (q == 0)%Q -> w' = w) /\
  (forall q, Audio.duration a = Js.Fin q -> ~ (q == 0)%Q ->
     audioDuration (state w') = Qfloor q /\
     rangeValues (state w') = (0, Qfloor q) /\
     ((0 <= q)%Q ->
      formatTime (Js.of_Z (audioDuration (state w'))) = formatTime (Js.Fin q))).
Proof.
  intros Ha. cbv zeta. unfold handleMetadata.
  cbv [bind audioRef_current]. cbn [fst snd]. rewrite Ha.
  split; [| split].
  - intros ->. reflexivity.
  - intros q -> Hq. cbn [truthy]. apply Qeq_bool_iff in Hq. rewrite Hq.
    reflexivity.
  - intros q -> Hq. cbn [truthy Js.isNaN Js.Math_floor].
    destruct (Qeq_bool q 0) eqn:E; [apply Qeq_bool_iff in E; contradiction |].
    cbn. repeat split.
    intros Hpos. symmetry. apply TimeExtras.formatTime_of_floor. exact Hpos.
Qed.

Lemma handleMetadata_witness :
  audioDuration
    (state (snd (handleMetadata
                   (dispatch (Media (Some Sample.playing_at_95)) Sample.trimmed))))
  = 200.
Proof.
  destruct (proj2 (proj2 (handleMetadata_takes_floor
              (dispatch (Media (Some Sample.playing_at_95)) Sample.trimmed)
              Sample.playing_at_95 eq_refl))
              (inject_Z 200) eq_refl ltac:(discriminate)) as (H & _).
  exact H.
Defined.

(** X20. A click on the seek track starts playback at the clicked second:
    with an audio element, afterwards the element and [currentTime] are
    both at [clickTime], the element is playing and [isPlaying] is true,
    whether or not something was playing before.  Without an element
    nothing changes. *)
Theorem seek_plays_from_click (w : World) (clickTime : Z) :
  let w' := snd (seek (state w) clickTime w) in
  (forall a, audioRef w = Some a ->
     exists a',
       audioRef w' = Some a' /\
       Audio.currentTime a' = Js.of_Z clickTime /\
       (isPlaying (state w) = false -> Audio.paused a' = false) /\
       (isPlaying (state w) = true -> Audio.paused a' = Audio.paused a) /\
       currentTime (state w') = Js.of_Z clickTime /\
       isPlaying (state w') = true) /\
  (audioRef w = None -> w' = w).
Proof.
  cbv zeta. unfold seek. cbv [bind audioRef_current]. cbn [fst snd].
  split.
  - intros a Ha. rewrite Ha. cbn. rewrite Ha.
    destruct (isPlaying (state w)) eqn:Hp; cbn;
      eexists; repeat split; (reflexivity || discriminate || assumption).
  - intros Ha. rewrite Ha. reflexivity.
Qed.

Lemma seek_witness :
  exists a',
    audioRef (snd (seek (state Sample.overrun) 42 Sample.overrun)) = Some a' /\
    Audio.currentTime a' = Js.of_Z 42.
Proof.
  destruct (proj1 (seek_plays_from_click Sample.overrun 42)
              Sample.playing_at_95 eq_refl) as (a' & Ha & Ht & _).
  exists a'. split; assumption.
Defined.

(** X21. Committing the same number again changes nothing in [App]: a
    second call of [handleStartTimeChange], or of [handleEndTimeChange],
    with the same seconds leaves the state cells, the audio element and
    the logs exactly as the first call left them.  (The text in the field
    is the state of [TimeInput], not of [App].) *)
Theorem repeated_commit_changes_nothing (w : World) (seconds : Z) :
  (let w1 := snd (handleStartTimeChange (state w) seconds w) in
   snd (handleStartTimeChange (state w1) seconds w1) = w1) /\
  (let w1 := snd (handleEndTimeChange (state w) seconds w) in
   snd (handleEndTimeChange (state w1) seconds w1) = w1).
Proof.
  split; cbv zeta.
  - unfold handleStartTimeChange. cbv [bind audioRef_current].
    cbn [setRangeValues modify fst snd state audioRef
         rangeValues audioDuration isPlaying].
    set (r1 := snd (rangeValues (state w))).
    replace (Z.min seconds (snd (Z.min seconds (r1 - 1), r1) - 1))
      with (Z.min seconds (r1 - 1)) by (cbn [snd]; lia).
    destruct (audioRef w) as [a |]; [destruct (isPlaying (state w)) |];
      cbn; reflexivity.
  - unfold handleEndTimeChange.
    cbn [setRangeValues modify fst snd state audioRef
         rangeValues audioDuration].
    set (r0 := fst (rangeValues (state w))).
    set (d := audioDuration (state w)).
    replace (Z.min (Z.max seconds (fst (r0, Z.min (Z.max seconds (r0 + 1)) d) + 1)) d)
      with (Z.min (Z.max seconds (r0 + 1)) d) by (cbn [fst]; lia).
    reflexivity.
Qed.


End PlayerExtras.
